(** * Content normalisation and aggregation pipeline of the web-search MCP server

    A shallow embedding of [src/utils/markdown.ts] (structure cleaner,
    markdown normaliser, summary extraction, result aggregation), of the
    [web_search_exa] tool handler and of the tool activation logic of
    [src/worker.ts], with the properties the specification states about them. *)

From Stdlib Require Import NArith ZArith Lia Bool List String Ascii Decimal DecimalString.
From stdpp Require Import base option list countable gmap.
Import ListNotations.

Local Open Scope N_scope.
Local Open Scope nat_scope.

(** ** JavaScript strings

    A JavaScript string is a sequence of UTF-16 code units; [length],
    [substring] and the regular expressions of the source (none has the [u]
    flag) all work on code units. *)

Definition char := N.
Definition str := list char.

(** ASCII literals of the source, as code units. *)
Definition lit (s : string) : str :=
  map N_of_ascii (list_ascii_of_string s).

Definition dquote : char := 34%N.
Definition newline : char := 10%N.
Definition space : char := 32%N.

Definition str_eqb (a b : str) : bool := bool_decide (a = b).

(** [WhiteSpace] and [LineTerminator] of ECMAScript: the characters matched by
    the class [\s] and stripped by [String.prototype.trim]. *)
Definition is_space (c : char) : bool :=
  ((9 <=? c) && (c <=? 13) || (c =? 32) || (c =? 160) || (c =? 5760)
   || (8192 <=? c) && (c <=? 8202) || (c =? 8232) || (c =? 8233)
   || (c =? 8239) || (c =? 8287) || (c =? 12288) || (c =? 65279))%N.

(** [s.trim()], as [trimEnd] after [trimStart]. *)
Fixpoint trimStart (s : str) : str :=
  match s with
  | c :: s' => if is_space c then trimStart s' else s
  | [] => []
  end.

Fixpoint trimEnd (s : str) : str :=
  match s with
  | [] => []
  | c :: s' =>
      match trimEnd s' with
      | [] => if is_space c then [] else [c]
      | t => c :: t
      end
  end.

Definition trim (s : str) : str := trimEnd (trimStart s).

(** [s.substring(0, n)] for a non-negative [n]. *)
Definition substring0 (n : nat) (s : str) : str := firstn n s.

(** ** Regular expressions

    The patterns of the source are sequences of single-character atoms, greedy
    stars and lazy stars over character classes.  [match_here] is the
    backtracking matcher of ECMAScript restricted to that fragment: it tries
    the alternatives in priority order and returns the number of code units
    consumed by the first successful one. *)

Inductive atom :=
| One (p : char -> bool)
| Star (p : char -> bool)
| Lazy (p : char -> bool).

Definition regex := list atom.

Fixpoint match_here (r : regex) : str -> option nat :=
  match r with
  | [] => fun _ => Some 0
  | One p :: r' => fun s =>
      match s with
      | c :: s' => if p c then S <$> match_here r' s' else None
      | [] => None
      end
  | Star p :: r' =>
      fix star (s : str) : option nat :=
        match s with
        | c :: s' =>
            if p c then
              match star s' with
              | Some n => Some (S n)
              | None => match_here r' s
              end
            else match_here r' s
        | [] => match_here r' []
        end
  | Lazy p :: r' =>
      fix lzy (s : str) : option nat :=
        match match_here r' s with
        | Some n => Some n
        | None =>
            match s with
            | c :: s' => if p c then S <$> lzy s' else None
            | [] => None
            end
        end
  end.

(** [s.replace(/r/g, rep)]: scan from the left; at each position not inside
    the previous match try the pattern; a match is replaced and the scan
    resumes after it ([skip] counts the code units of the match still to be
    dropped); an empty match inserts [rep] and keeps the character. *)
Fixpoint replace_from (r : regex) (rep : str) (s : str) (skip : nat) : str :=
  match s with
  | [] =>
      match skip, match_here r [] with
      | 0, Some _ => rep
      | _, _ => []
      end
  | c :: s' =>
      match skip with
      | S k => replace_from r rep s' k
      | 0 =>
          match match_here r s with
          | Some (S n) => rep ++ replace_from r rep s' n
          | Some 0 => rep ++ c :: replace_from r rep s' 0
          | None => c :: replace_from r rep s' 0
          end
      end
  end.

Definition replace_all (r : regex) (rep : str) (s : str) : str :=
  replace_from r rep s 0.

(** Character classes.  Under the [i] flag a pattern character matches the
    code units with the same canonical form; the canonical form of an ASCII
    code unit is its upper case, that of any other code unit is not ASCII. *)
Definition upcase (c : char) : char :=
  if ((97 <=? c) && (c <=? 122))%N then (c - 32)%N else c.

Definition ci (c : char) : char -> bool :=
  fun x => ((x <? 128) && (upcase x =? upcase c))%N.

Definition is_char (c : char) : char -> bool := fun x => (x =? c)%N.
Definition not_char (c : char) : char -> bool := fun x => negb (x =? c)%N.
Definition any_char : char -> bool := fun _ => true.

Definition ci_lit (s : string) : regex := map (fun c => One (ci c)) (lit s).

(** [/p+/g] replaced by one character, described run by run: every maximal
    run of characters of class [p] becomes the single character [x]
    ([in_run] tells whether the previous character was of the class). *)
Fixpoint squash_from (p : char -> bool) (x : char) (in_run : bool) (s : str)
  : str :=
  match s with
  | [] => []
  | c :: s' =>
      if p c
      then (if in_run then squash_from p x true s'
            else x :: squash_from p x true s')
      else c :: squash_from p x false s'
  end.

(** Length of the run of class [p] a string starts with. *)
Fixpoint run_length (p : char -> bool) (s : str) : nat :=
  match s with
  | c :: s' => if p c then S (run_length p s') else 0
  | [] => 0
  end.

(** ** Structure cleaner ([cleanHtmlContent]) *)

Module Cleaner.

Definition not_gt : char -> bool := not_char 62%N.
Definition not_dquote : char -> bool := not_char dquote.

(** [/<tag[^>]*>[\s\S]*?<\/tag>/gi] *)
Definition block_re (tag : string) : regex :=
  ci_lit "<" ++ ci_lit tag ++ [Star not_gt] ++ ci_lit ">"
    ++ [Lazy any_char] ++ ci_lit "</" ++ ci_lit tag ++ ci_lit ">".

(** [/<div[^>]*attr=Q[^Q]*token[^Q]*Q[^>]*>[\s\S]*?<\/div>/gi], where [Q]
    stands for the double quote *)
Definition div_attr_re (attr token : string) : regex :=
  ci_lit "<div" ++ [Star not_gt] ++ ci_lit attr ++ ci_lit "="
    ++ [One (ci dquote); Star not_dquote] ++ ci_lit token
    ++ [Star not_dquote; One (ci dquote); Star not_gt] ++ ci_lit ">"
    ++ [Lazy any_char] ++ ci_lit "</div>".

(** [/<img[^>]*attr=Q[^Q]*token[^Q]*Q[^>]*>/gi] *)
Definition img_attr_re (attr token : string) : regex :=
  ci_lit "<img" ++ [Star not_gt] ++ ci_lit attr ++ ci_lit "="
    ++ [One (ci dquote); Star not_dquote] ++ ci_lit token
    ++ [Star not_dquote; One (ci dquote); Star not_gt] ++ ci_lit ">".

Definition script_re := block_re "script".
Definition style_re := block_re "style".
Definition nav_re := block_re "nav".
Definition header_re := block_re "header".
Definition footer_re := block_re "footer".
Definition div_class_ad_re := div_attr_re "class" "ad".
Definition div_id_ad_re := div_attr_re "id" "ad".
Definition aside_re := block_re "aside".
Definition div_class_share_re := div_attr_re "class" "share".
Definition div_class_social_re := div_attr_re "class" "social".
Definition img_alt_logo_re := img_attr_re "alt" "logo".
Definition img_class_icon_re := img_attr_re "class" "icon".

(** [/\s+/g] and [/\n\s*\n/g] *)
Definition spaces_re : regex := [One is_space; Star is_space].
Definition blank_lines_re : regex :=
  [One (is_char newline); Star is_space; One (is_char newline)].

(** The guard [!html] returns the empty string as it is; the input is a
    string, so the [typeof] test of the guard never fires. *)
Definition cleanHtmlContent (html : str) : str :=
  match html with
  | [] => html
  | _ =>
      let html := replace_all script_re [] html in
      let html := replace_all style_re [] html in
      let html := replace_all nav_re [] html in
      let html := replace_all header_re [] html in
      let html := replace_all footer_re [] html in
      let html := replace_all div_class_ad_re [] html in
      let html := replace_all div_id_ad_re [] html in
      let html := replace_all aside_re [] html in
      let html := replace_all div_class_share_re [] html in
      let html := replace_all div_class_social_re [] html in
      let html := replace_all img_alt_logo_re [] html in
      let html := replace_all img_class_icon_re [] html in
      let html := replace_all spaces_re [space] html in
      let html := replace_all blank_lines_re [newline] html in
      trim html
  end.

(** The twelve structure patterns, in the order the cleaner applies them. *)
Definition removal_patterns : list regex :=
  [ script_re; style_re; nav_re; header_re; footer_re; div_class_ad_re;
    div_id_ad_re; aside_re; div_class_share_re; div_class_social_re;
    img_alt_logo_re; img_class_icon_re ].

(** Whether pattern [r] matches somewhere in [s] (at any start position,
    the end of the string included). *)
Fixpoint matches_in (r : regex) (s : str) : bool :=
  match s with
  | [] => bool_decide (is_Some (match_here r []))
  | _ :: s' => bool_decide (is_Some (match_here r s)) || matches_in r s'
  end.

(** The input contains one of the targeted structures. *)
Definition targeted (html : str) : bool :=
  existsb (fun r => matches_in r html) removal_patterns.

(** Whitespace normalisation in the words of the specification: every
    maximal run of whitespace becomes one space, and the ends are trimmed. *)
Definition collapse_ws (s : str) : str := squash_from is_space space false s.
Definition normalize_ws (s : str) : str := trim (collapse_ws s).

End Cleaner.

(** ** Runtime values, exceptions and results

    The backend binding is typed [any] and the upstream items are unchecked
    JSON, so the values flowing through the pipeline are modelled with their
    run-time shape.  A rejected promise and a thrown exception are the same
    thing for the [await]ing caller. *)

Inductive value :=
| VUndefined
| VNull
| VBool (b : bool)
| VNumber (n : Z)
| VString (s : str).

#[global] Instance value_eq_dec : EqDecision value.
Proof. solve_decision. Defined.

Definition truthy (v : value) : bool :=
  match v with
  | VUndefined | VNull => false
  | VBool b => b
  | VNumber n => negb (n =? 0)%Z
  | VString s => negb (bool_decide (s = []))
  end.

Inductive exn :=
| TypeError
| Rejected (reason : str).

Inductive result (A : Type) :=
| Ok (a : A)
| Throw (e : exn).
Arguments Ok {A} a.
Arguments Throw {A} e.

Definition result_bind {A B} (m : result A) (k : A -> result B) : result B :=
  match m with
  | Ok a => k a
  | Throw e => Throw e
  end.

(** [try { m } catch (error) { h error }] *)
Definition result_catch {A} (m : result A) (h : exn -> result A) : result A :=
  match m with
  | Ok a => Ok a
  | Throw e => h e
  end.

Declare Scope result_scope.
Delimit Scope result_scope with result.
Notation "'let*' x := m 'in' k" := (result_bind m (fun x => k))
  (at level 10, x name, m at level 100, k at level 200) : result_scope.

(** A string method called on a value ([v.replace(...)], [v.substring(...)]):
    on [null] and [undefined] the property access raises, on other
    non-strings the property is not a function; both are [TypeError]s. *)
Definition as_string (v : value) : result str :=
  match v with
  | VString s => Ok s
  | _ => Throw TypeError
  end.

Definition value_of (t : option str) : value :=
  match t with
  | Some s => VString s
  | None => VNull
  end.

(** ** Markdown conversion ([convertToMarkdown]) *)

Record Document := { doc_name : str; blob : str; blob_type : str }.

(** One record of the backend's answer. *)
Record Conversion := { format : value; data : value }.

(** What [await env.AI.toMarkdown(...)] does: it raises (a thrown error, a
    rejection, a time-out of the client), or yields a value that is falsy
    ([None]) or a list whose entries are records or [null] ([None]). *)
Inductive AiOutcome :=
| AiRejects (e : exn)
| AiResolves (markdownResult : option (list (option Conversion))).

(** The answer of the backend is taken as a function of the request. *)
Record AiBinding := { toMarkdown : list Document -> AiOutcome }.

Record Env := { AI : option AiBinding }.

Definition await (o : AiOutcome) : result (option (list (option Conversion))) :=
  match o with
  | AiRejects e => Throw e
  | AiResolves r => Ok r
  end.

(** Property access on an entry of the answer. *)
Definition deref {A} (o : option A) : result A :=
  match o with
  | Some a => Ok a
  | None => Throw TypeError
  end.

Definition text_html : str := lit "text/html".

Definition convertToMarkdown
    (content : option str) (env : option Env) (mimeType : str) : result value :=
  match content with
  | None => Ok (value_of content)
  | Some c =>
      if bool_decide (c = []) || bool_decide (trim c = []) then Ok (VString c)
      else
        match env ≫= AI with
        | None => Ok (VString c)
        | Some ai =>
            result_catch
              (let processedContent :=
                 if str_eqb mimeType text_html
                 then Cleaner.cleanHtmlContent c else c in
               let* markdownResult :=
                 await (toMarkdown ai
                          [{| doc_name := lit "content";
                              blob := processedContent;
                              blob_type := mimeType |}]) in
               match markdownResult with
               | Some (entry :: _) =>
                   let* conversion := deref entry in
                   if bool_decide (format conversion = VString (lit "markdown"))
                      && truthy (data conversion)
                   then Ok (data conversion)
                   else Ok (VString c)
               | _ => Ok (VString c)
               end)%result
              (fun _ => Ok (VString c))
        end
  end.

(** ** Summary extraction (inlined in the aggregator) *)

Module Summary.

(** [/[#*`]/g] and [/\n+/g] *)
Definition is_marker (c : char) : bool :=
  ((c =? 35) || (c =? 42) || (c =? 96))%N.
Definition markers_re : regex := [One is_marker].
Definition newlines_re : regex :=
  [One (is_char newline); Star (is_char newline)].

(** [cleanText.replace(/[#*`]/g, '').replace(/\n+/g, ' ').trim()] *)
Definition stripped (cleanText : str) : str :=
  trim (replace_all newlines_re [space] (replace_all markers_re [] cleanText)).

Definition ellipsis : str := lit "...".

(** The source fixes the limit to 200. *)
Definition displaySummaryAt (limit : nat) (cleanText : str) : str :=
  let summary := trim (substring0 limit (stripped cleanText)) in
  if length summary <? length (stripped cleanText)
  then summary ++ ellipsis
  else summary.

Definition displaySummary : str -> str := displaySummaryAt 200.

End Summary.

(** ** Result aggregation ([formatSearchResultsToMarkdown]) *)

(** One upstream result, as it arrives at run time: the interface declares
    every field a string, the data is parsed JSON ([None]: the field is
    [null] or missing). *)
Record ExaSearchResult := {
  id : str;
  title : str;
  url : str;
  publishedDate : option str;
  author : option str;
  text : option str
}.

Definition decimal (n : nat) : str :=
  lit (DecimalString.NilEmpty.string_of_uint (Nat.to_uint n)).

(** The loop of the aggregator appends to the local variable [markdown] and
    may raise in the middle of an iteration: a computation takes the current
    value of [markdown] and gives a result together with the new value, which
    survives an exception. *)
Module Agg.

Definition t (A : Type) : Type := str -> result A * str.

Definition ret {A} (a : A) : t A := fun markdown => (Ok a, markdown).

Definition bind {A B} (m : t A) (k : A -> t B) : t B :=
  fun markdown =>
    match m markdown with
    | (Ok a, markdown') => k a markdown'
    | (Throw e, markdown') => (Throw e, markdown')
    end.

Definition lift {A} (r : result A) : t A := fun markdown => (r, markdown).

(** [markdown += s] *)
Definition append (s : str) : t unit :=
  fun markdown => (Ok tt, markdown ++ s).

(** [try { m } catch (error) { h error }] *)
Definition try_catch {A} (m : t A) (h : exn -> t A) : t A :=
  fun markdown =>
    match m markdown with
    | (Ok a, markdown') => (Ok a, markdown')
    | (Throw e, markdown') => h e markdown'
    end.

(** [if (c) { m }] *)
Definition when (c : bool) (m : t unit) : t unit :=
  if c then m else ret tt.

(** [for (const x of l) { body x }] *)
Fixpoint for_of {A} (l : list A) (body : A -> t unit) : t unit :=
  match l with
  | [] => ret tt
  | x :: l' => bind (body x) (fun _ => for_of l' body)
  end.

(** [return markdown] *)
Definition current : t str := fun markdown => (Ok markdown, markdown).

End Agg.

Declare Scope agg_scope.
Delimit Scope agg_scope with agg.
Notation "'let*' x := m 'in' k" := (Agg.bind m (fun x => k))
  (at level 10, x name, m at level 100, k at level 200) : agg_scope.
Notation "m ;; k" := (Agg.bind m (fun _ => k))
  (at level 100, k at level 200, right associativity) : agg_scope.

Section Aggregator.

(** [new Date(s).toLocaleDateString()]: depends on the locale of the
    runtime; it never raises (an unparsable date prints as such). *)
Variable toLocaleDateString : str -> str.

Definition no_results_for (query : str) : str :=
  lit "No search results found for " ++ [dquote] ++ query ++ [dquote] ++ lit ".".

(** The header; its third and fourth code units after the marker are the
    surrogate pair of the magnifying-glass sign U+1F50D. *)
Definition results_header (query : str) : str :=
  lit "## " ++ [55357%N; 56589%N] ++ lit " Search Results for " ++ [dquote]
    ++ query ++ [dquote] ++ [newline; newline].

Definition title_line (result : ExaSearchResult) : str :=
  lit "### [" ++ title result ++ lit "](" ++ url result ++ lit ")" ++ [newline].

Definition nonempty (o : option str) : bool :=
  match o with
  | Some (_ :: _) => true
  | _ => false
  end.

(** The body of the loop. *)
Definition process_result (env : option Env) (result : ExaSearchResult)
  : Agg.t unit :=
  Agg.try_catch
    (let* cleanText :=
       Agg.lift (convertToMarkdown (text result) env text_html) in
     let* cleanText := Agg.lift (as_string cleanText) in
     let displaySummary := Summary.displaySummary cleanText in
     Agg.append (title_line result) ;;
     Agg.when (nonempty (author result))
       (Agg.append (lit "**Author:** " ++ default [] (author result)
                      ++ lit "  " ++ [newline])) ;;
     Agg.when (nonempty (publishedDate result))
       (let date := toLocaleDateString (default [] (publishedDate result)) in
        Agg.append (lit "**Published:** " ++ date ++ lit "  " ++ [newline])) ;;
     Agg.append (displaySummary ++ [newline; newline]))%agg
    (fun _ =>
       (Agg.append (title_line result) ;;
        let* raw := Agg.lift (as_string (value_of (text result))) in
        Agg.append (substring0 200 raw ++ lit "..." ++ [newline; newline]))%agg).

Definition more_results (n : nat) : str :=
  lit "*And " ++ decimal n ++ lit " more results...*" ++ [newline; newline].

Definition formatSearchResultsToMarkdown
    (results : option (list ExaSearchResult)) (query : str)
    (env : option Env) : result str :=
  match results with
  | None | Some [] => Ok (no_results_for query)
  | Some results =>
      fst ((Agg.for_of (firstn 10 results) (process_result env) ;;
            Agg.when (10 <? length results)
              (Agg.append (more_results (length results - 10))) ;;
            Agg.current)%agg
           (results_header query))
  end.

End Aggregator.

(** ** The [web_search_exa] tool handler *)

Module WebSearch.

(** What the handler answers: one text entry and the [isError] flag
    ([false]: the flag is absent). *)
Record ToolResult := { content_text : str; isError : bool }.

Record AxiosError := {
  status : option nat;          (* error.response?.status *)
  data_message : option str;    (* error.response?.data?.message *)
  message : str                 (* error.message *)
}.

Record ExaSearchResponse := { results : option (list ExaSearchResult) }.

(** What [await axiosInstance.post(...)] does; [response.data] may be
    missing. *)
Inductive PostOutcome :=
| PostFails (e : AxiosError)
| PostThrows (e : exn)
| PostResolves (response_data : option ExaSearchResponse).

Definition no_results_text : str :=
  lit "No search results found. Please try a different query.".

Section Handler.

Variable toLocaleDateString : str -> str.

(** [error instanceof Error ? error.message : String(error)] *)
Variable error_text : exn -> str.

Definition axios_error_result (e : AxiosError) : ToolResult :=
  let statusCode :=
    match status e with
    | Some (S n) => decimal (S n)
    | _ => lit "unknown"
    end in
  let errorMessage :=
    match data_message e with
    | Some (c :: m) => c :: m
    | _ => message e
    end in
  {| content_text :=
       lit "Search error (" ++ statusCode ++ lit "): " ++ errorMessage;
     isError := true |}.

Definition generic_error_result (e : exn) : ToolResult :=
  {| content_text := lit "Search error: " ++ error_text e;
     isError := true |}.

Definition web_search_exa
    (query : str) (env : option Env) (post : PostOutcome) : ToolResult :=
  match post with
  | PostFails e => axios_error_result e
  | PostThrows e => generic_error_result e
  | PostResolves response_data =>
      match response_data ≫= results with
      | None | Some [] =>
          {| content_text := no_results_text; isError := false |}
      | Some rs =>
          match formatSearchResultsToMarkdown
                  toLocaleDateString (Some rs) query env with
          | Ok markdownContent =>
              {| content_text := markdownContent; isError := false |}
          | Throw e => generic_error_result e
          end
      end
  end.

End Handler.

End WebSearch.

(** ** Tool activation ([src/worker.ts]) *)

Module Worker.

Record ToolInfo := { name : str; description : str; enabled : bool }.

Definition tool (id nm descr : string) (on : bool) : str * ToolInfo :=
  (lit id, {| name := lit nm; description := lit descr; enabled := on |}).

(** The tool registry. *)
Definition availableTools : gmap str ToolInfo :=
  list_to_map
    [ tool "web_search_exa" "Web Search (Exa)"
        "Real-time web search using Exa AI" true;
      tool "get_code_context_exa" "Code Context Search"
        "Search for code snippets, examples, and documentation from open source repositories"
        true;
      tool "deep_search_exa" "Deep Search (Exa)"
        "Advanced web search with query expansion and high-quality summaries"
        false;
      tool "crawling_exa" "Web Crawling"
        "Extract content from specific URLs" false;
      tool "deep_researcher_start" "Deep Researcher Start"
        "Start a comprehensive AI research task" false;
      tool "deep_researcher_check" "Deep Researcher Check"
        "Check status and retrieve results of research task" false;
      tool "linkedin_search_exa" "LinkedIn Search"
        "Search LinkedIn profiles and companies" false;
      tool "company_research_exa" "Company Research"
        "Research companies and organizations" false ].

(** [s.split(sep)] for a one-character separator. *)
Fixpoint split_on (sep : char) (s : str) : list str :=
  match s with
  | [] => [[]]
  | c :: s' =>
      if (c =? sep)%N then [] :: split_on sep s'
      else
        match split_on sep s' with
        | piece :: pieces => (c :: piece) :: pieces
        | [] => [[c]]
        end
  end.

Definition comma : char := 44%N.

(** The configured selection: a string (the declared type of
    [ENABLED_TOOLS]) or an array. *)
Inductive ToolsParam :=
| ToolsString (s : str)
| ToolsArray (a : list str).

(** Parse and normalise the tool selection; the empty string is falsy, an
    array is taken as it is. *)
Definition parsedEnabledTools (toolsParam : option ToolsParam)
  : option (list str) :=
  match toolsParam with
  | Some (ToolsString []) => None
  | Some (ToolsString s) =>
      Some (filter (fun tool : str => 0 < length tool)
              (map trim (split_on comma s)))
  | Some (ToolsArray a) => Some a
  | None => None
  end.

(** [availableTools[toolId]?.enabled ?? false]: an id that is not a key of
    the registry yields [false]. *)
Definition shouldRegisterTool (catalog : gmap str ToolInfo)
    (enabledTools : option (list str)) (toolId : str) : bool :=
  match enabledTools with
  | Some ((_ :: _) as enabledTools) => bool_decide (toolId ∈ enabledTools)
  | _ => default false (enabled <$> catalog !! toolId)
  end.

(** The ids in the order the worker registers them. *)
Definition registration_order : list str :=
  map lit [ "web_search_exa"; "deep_search_exa"; "company_research_exa";
            "crawling_exa"; "linkedin_search_exa"; "deep_researcher_start";
            "deep_researcher_check"; "get_code_context_exa" ]%string.

Definition registeredTools (toolsParam : option ToolsParam) : list str :=
  filter (fun toolId =>
            shouldRegisterTool availableTools
              (parsedEnabledTools toolsParam) toolId = true)
    registration_order.

End Worker.

(** ** JSON conversion ([convertJsonToMarkdown]) *)

Definition text_plain : str := lit "text/plain".

(** The argument of [convertJsonToMarkdown]: a string, or any other datum,
    given by what [JSON.stringify(data, null, 2)] does on it (it raises, or
    yields a string, or yields [undefined]: [None]). *)
Inductive JsonArg :=
| JsonString (s : str)
| JsonOther (stringified : result (option str)).

Definition jsonString (data : JsonArg) : result (option str) :=
  match data with
  | JsonString s => Ok (Some s)
  | JsonOther stringified => stringified
  end.

Definition convertJsonToMarkdown (data : JsonArg) (env : option Env)
  : result value :=
  (let* jsonString := jsonString data in
   convertToMarkdown jsonString env text_plain)%result.

(** ** The normaliser without the cleaner ([src/unnamed/part_001]) *)

Module PlainMarkdown.

Definition convertToMarkdown
    (content : option str) (env : option Env) (mimeType : str) : result value :=
  match content with
  | None => Ok (value_of content)
  | Some c =>
      if bool_decide (c = []) || bool_decide (trim c = []) then Ok (VString c)
      else
        match env ≫= AI with
        | None => Ok (VString c)
        | Some ai =>
            result_catch
              (let* markdownResult :=
                 await (toMarkdown ai
                          [{| doc_name := lit "content";
                              blob := c;
                              blob_type := mimeType |}]) in
               match markdownResult with
               | Some (entry :: _) =>
                   let* conversion := deref entry in
                   if bool_decide (format conversion = VString (lit "markdown"))
                      && truthy (data conversion)
                   then Ok (data conversion)
                   else Ok (VString c)
               | _ => Ok (VString c)
               end)%result
              (fun _ => Ok (VString c))
        end
  end.

Definition convertJsonToMarkdown (data : JsonArg) (env : option Env)
  : result value :=
  (let* jsonString := jsonString data in
   convertToMarkdown jsonString env text_plain)%result.

End PlainMarkdown.

(** ** The [crawling_exa] tool handler ([src/tools/crawling.ts]) *)

Module Crawling.

(** The text entry of the answer is whatever the handler puts there: the
    crawled text, a JSON dump, an error message, or the data of the
    backend's record, which is not checked to be a string. *)
Record ToolResult := { content_text : value; isError : bool }.

(** [response.data]; an entry of [results] may be [null]. *)
Record CrawlResponse := { results : option (list (option ExaSearchResult)) }.

Inductive PostOutcome :=
| PostFails (e : WebSearch.AxiosError)
| PostThrows (e : exn)
| PostResolves (response_data : option CrawlResponse).

Definition no_content_text : str :=
  lit "No content found for the provided URL.".

(** [crawledResult?.text || '']: the empty string is the only falsy
    string. *)
Definition crawledText (crawledResult : option ExaSearchResult) : str :=
  default [] (crawledResult ≫= text).

Section Handler.

(** [JSON.stringify(response.data, null, 2)] of the parsed response. *)
Variable stringify : CrawlResponse -> str.

(** [error instanceof Error ? error.message : String(error)] *)
Variable error_text : exn -> str.

Definition axios_error_result (e : WebSearch.AxiosError) : ToolResult :=
  let statusCode :=
    match WebSearch.status e with
    | Some (S n) => decimal (S n)
    | _ => lit "unknown"
    end in
  let errorMessage :=
    match WebSearch.data_message e with
    | Some (c :: m) => c :: m
    | _ => WebSearch.message e
    end in
  {| content_text :=
       VString (lit "Crawling error (" ++ statusCode ++ lit "): "
                  ++ errorMessage);
     isError := true |}.

Definition generic_error_result (e : exn) : ToolResult :=
  {| content_text := VString (lit "Crawling error: " ++ error_text e);
     isError := true |}.

Definition plain_result (v : value) : ToolResult :=
  {| content_text := v; isError := false |}.

(** The inner [try] block: conversion of the crawled text, which is sent to
    the backend as it is, under the name of the URL. *)
Definition convert_crawled (url : str) (env : option Env) (crawledText : str)
  : result ToolResult :=
  match env ≫= AI with
  | None => Ok (plain_result (VString crawledText))
  | Some ai =>
      (let* markdownResult :=
         await (toMarkdown ai
                  [{| doc_name := url; blob := crawledText;
                      blob_type := text_html |}]) in
       match markdownResult with
       | Some (entry :: _) =>
           let* conversion := deref entry in
           if bool_decide (format conversion = VString (lit "markdown"))
              && truthy (data conversion)
           then Ok (plain_result (data conversion))
           else Ok (plain_result (VString crawledText))
       | _ => Ok (plain_result (VString crawledText))
       end)%result
  end.

Definition crawling_exa (url : str) (env : option Env) (post : PostOutcome)
  : ToolResult :=
  match post with
  | PostFails e => axios_error_result e
  | PostThrows e => generic_error_result e
  | PostResolves response_data =>
      match response_data with
      | None => plain_result (VString no_content_text)
      | Some response =>
          match results response with
          | None | Some [] => plain_result (VString no_content_text)
          | Some (crawledResult :: _) =>
              let crawledText := crawledText crawledResult in
              if bool_decide (trim crawledText = [])
              then plain_result (VString (stringify response))
              else
                match
                  result_catch (convert_crawled url env crawledText)
                    (fun _ => Ok (plain_result (VString crawledText)))
                with
                | Ok result => result
                | Throw e => generic_error_result e
                end
          end
      end
  end.

End Handler.

End Crawling.

(** ** The [tools_list] resource of the worker *)

Module ToolsList.

(** The entries of the registry, in the order of the object literal. *)
Definition entries : list (str * Worker.ToolInfo) :=
  [ Worker.tool "web_search_exa" "Web Search (Exa)"
      "Real-time web search using Exa AI" true;
    Worker.tool "get_code_context_exa" "Code Context Search"
      "Search for code snippets, examples, and documentation from open source repositories"
      true;
    Worker.tool "deep_search_exa" "Deep Search (Exa)"
      "Advanced web search with query expansion and high-quality summaries"
      false;
    Worker.tool "crawling_exa" "Web Crawling"
      "Extract content from specific URLs" false;
    Worker.tool "deep_researcher_start" "Deep Researcher Start"
      "Start a comprehensive AI research task" false;
    Worker.tool "deep_researcher_check" "Deep Researcher Check"
      "Check status and retrieve results of research task" false;
    Worker.tool "linkedin_search_exa" "LinkedIn Search"
      "Search LinkedIn profiles and companies" false;
    Worker.tool "company_research_exa" "Company Research"
      "Research companies and organizations" false ].

Record Listing := {
  listing_id : str;
  listing_name : str;
  listing_description : str;
  listing_enabled : bool
}.

(** [Object.entries(availableTools).map(...)], with
    [enabled: registeredTools.includes(id)]. *)
Definition toolsList (toolsParam : option Worker.ToolsParam) : list Listing :=
  map (fun entry : str * Worker.ToolInfo =>
         {| listing_id := fst entry;
            listing_name := Worker.name (snd entry);
            listing_description := Worker.description (snd entry);
            listing_enabled :=
              bool_decide (fst entry ∈ Worker.registeredTools toolsParam) |})
    entries.

End ToolsList.

(** ** Search intent of the chat integration ([extractSearchIntent]) *)

Module Intent.

(** The class [.] without the [s] flag: everything but the line
    terminators. *)
Definition is_dot (c : char) : bool :=
  negb ((c =? 10) || (c =? 13) || (c =? 8232) || (c =? 8233))%N.

(** [s.match(/r/)]: the leftmost match, as its start index and length. *)
Fixpoint search (r : regex) (s : str) : option (nat * nat) :=
  match match_here r s with
  | Some n => Some (0, n)
  | None =>
      match s with
      | [] => None
      | _ :: s' =>
          match search r s' with
          | Some (i, n) => Some (S i, n)
          | None => None
          end
      end
  end.

(** A pattern [/before(.+)after/i] with literal [before] and [after]. *)
Record Pattern := { before : string; after : string }.

Definition pattern_re (p : Pattern) : regex :=
  ci_lit (before p) ++ [One is_dot; Star is_dot] ++ ci_lit (after p).

(** [message.match(pattern)[1]]: the group lies between the two literals
    of the match. *)
Definition group1 (p : Pattern) (message : str) : option str :=
  match search (pattern_re p) message with
  | Some (i, n) =>
      Some (firstn (n - String.length (before p) - String.length (after p))
              (skipn (i + String.length (before p)) message))
  | None => None
  end.

Definition searchPatterns : list Pattern :=
  [ {| before := "search for "; after := "" |};
    {| before := "find "; after := "" |};
    {| before := "look up "; after := "" |};
    {| before := "what is "; after := "?" |} ].

Fixpoint first_match (patterns : list Pattern) (message : str) : option str :=
  match patterns with
  | [] => None
  | pattern :: patterns' =>
      match group1 pattern message with
      | Some q => Some q
      | None => first_match patterns' message
      end
  end.

Definition extractSearchIntent (message : str) : option str :=
  first_match searchPatterns message.

End Intent.

(** ** Auxiliary notions used in the statements *)

(** A string that is empty or starts with a character [trim] keeps. *)
Definition starts_clean (s : str) : Prop :=
  match s with
  | c :: _ => is_space c = false
  | [] => True
  end.

(** The cleaner's twelve structure removals, one after the other. *)
Definition strip_structures (html : str) : str :=
  fold_left (fun h r => replace_all r [] h) Cleaner.removal_patterns html.

(** [needle] occurs in [s] as a contiguous substring. *)
Definition occurs_in (needle s : str) : Prop :=
  exists before after, s = before ++ needle ++ after.

Definition lt_sign : char := 60%N.

(** The request [convertToMarkdown] sends to the backend. *)
Definition conversion_request (processedContent mimeType : str) : list Document :=
  [{| doc_name := lit "content"; blob := processedContent;
      blob_type := mimeType |}].

(** What the normaliser sends for [content]: the cleaned text under the HTML
    mime type, the text itself otherwise. *)
Definition processed (content mimeType : str) : str :=
  if str_eqb mimeType text_html then Cleaner.cleanHtmlContent content else content.

(** The conversion gateway in the words of the specification: the outcome of
    the backend counts as converted markdown only when it is a non-empty list
    whose first record has the format tag [markdown] and non-empty data;
    every other answer, and every error, is a failed conversion ([None]). *)
Definition converted (o : AiOutcome) : option value :=
  match o with
  | AiResolves (Some (Some conversion :: _)) =>
      if bool_decide (format conversion = VString (lit "markdown"))
         && truthy (data conversion)
      then Some (data conversion) else None
  | _ => None
  end.

(** The text is neither empty nor whitespace only. *)
Definition has_content (content : str) : Prop :=
  content <> [] /\ trim content <> [].

(** Inputs of the examples: a page whose only markup is a script block, and
    a backend whose every call fails. *)
Definition script_page : str := lit "<script>x</script>hi".

Definition failing_env : option Env :=
  Some {| AI := Some {| toMarkdown := fun _ => AiRejects (Rejected (lit "timeout")) |} |}.

Section Rendering.

Variable toLocaleDateString : str -> str.

(** The section of one item in the words of the specification: the title
    as a link, the author line and the formatted date line when the item
    has them, then the summary of the item's normalised markdown. *)
Definition item_section (result : ExaSearchResult) (markdown : str) : str :=
  title_line result
    ++ match author result with
       | Some (c :: a) => lit "**Author:** " ++ (c :: a) ++ lit "  " ++ [newline]
       | _ => []
       end
    ++ match publishedDate result with
       | Some (c :: d) =>
           lit "**Published:** " ++ toLocaleDateString (c :: d)
             ++ lit "  " ++ [newline]
       | _ => []
       end
    ++ Summary.displaySummary markdown ++ [newline; newline].

(** The minimal rendering: the title as a link and the first 200 code
    units of the raw text, followed by an ellipsis. *)
Definition fallback_section (result : ExaSearchResult) (raw : str) : str :=
  title_line result ++ substring0 200 raw ++ lit "..." ++ [newline; newline].

(** The normalised markdown of an item, when normalisation yields a string
    (so that summarisation does not raise). *)
Definition normalized (env : option Env) (result : ExaSearchResult)
  : option str :=
  match convertToMarkdown (text result) env text_html with
  | Ok (VString markdown) => Some markdown
  | _ => None
  end.

Definition rendered (env : option Env) (result : ExaSearchResult) : str :=
  match normalized env result with
  | Some markdown => item_section result markdown
  | None => fallback_section result (default [] (text result))
  end.

(** The trailing note for an input of [n] items. *)
Definition overflow_note (n : nat) : str :=
  if 10 <? n then more_results (n - 10) else [].

End Rendering.

(** The data of a record the backend tags as markdown is a string, as the
    consumer of [convertToMarkdown] expects of its declared result type. *)
Definition typed_outcome (o : AiOutcome) : Prop :=
  forall v, converted o = Some v -> exists markdown, v = VString markdown.

Definition typed_env (env : option Env) : Prop :=
  forall ai docs, env ≫= AI = Some ai -> typed_outcome (toMarkdown ai docs).

(** Items of the examples. *)
Definition plain_item : ExaSearchResult :=
  {| id := lit "ok"; title := lit "Plain"; url := lit "https://example.com/p";
     publishedDate := None; author := Some (lit "Ann");
     text := Some (lit "Plain <b>text</b>, with an unclosed <div tag.") |}.

Definition null_text_item : ExaSearchResult :=
  {| id := lit "bad"; title := lit "Broken"; url := lit "https://example.com/b";
     publishedDate := None; author := None; text := None |}.

(** A backend that answers every request with the same markdown record, and
    one whose record carries a number where the markdown should be. *)
Definition markdown_env : option Env :=
  Some {| AI := Some {| toMarkdown := fun _ =>
            AiResolves (Some [Some {| format := VString (lit "markdown");
                                      data := VString (lit "# Title") |}]) |} |}.

Definition number_env : option Env :=
  Some {| AI := Some {| toMarkdown := fun _ =>
            AiResolves (Some [Some {| format := VString (lit "markdown");
                                      data := VNumber 5 |}]) |} |}.

(** Tool activation in the words of the specification: the ids a
    comma-separated selection asks for are its entries, trimmed, the empty
    ones left out; the default of an id is the flag of its registry entry. *)
Definition requested (s : str) (toolId : str) : Prop :=
  toolId <> [] /\ exists piece, piece ∈ Worker.split_on Worker.comma s
                               /\ trim piece = toolId.


(** A text without markup, with whitespace runs and a blank line. *)
Definition plain_sample : str :=
  lit "  Plain   text," ++ [newline; newline; 9%N] ++ lit " no  markup.  ".

(** A string that is empty or ends with a character [trim] keeps. *)
Definition ends_clean (s : str) : Prop :=
  forall t c, s = t ++ [c] -> is_space c = false.

(** No two neighbouring characters are both of class [p]. *)
Fixpoint no_adjacent (p : char -> bool) (s : str) : Prop :=
  match s with
  | a :: t =>
      match t with
      | b :: _ => ~ (p a = true /\ p b = true)
      | [] => True
      end /\ no_adjacent p t
  | [] => True
  end.

(** The first character, if any, is not of class [p]. *)
Definition starts_outside (p : char -> bool) (s : str) : Prop :=
  match s with
  | c :: _ => p c = false
  | [] => True
  end.

(** The text of the result document, written out character by character
    as the specification describes it and the templates of the source spell
    it: the header naming the query, the title of an item as a link, the
    full and the minimal section of an item, and the note on the omitted
    items ([U+1F50D], the magnifying glass, is the surrogate pair 55357,
    56589). *)
Definition header_text (query : str) : str :=
  lit "## " ++ [55357%N; 56589%N] ++ lit " Search Results for " ++ [34%N]
    ++ query ++ [34%N] ++ [10%N; 10%N].

Definition link_line (result : ExaSearchResult) : str :=
  lit "### [" ++ title result ++ lit "](" ++ url result ++ lit ")" ++ [10%N].

Section DocumentText.

Variable toLocaleDateString : str -> str.

Definition full_section (result : ExaSearchResult) (markdown : str) : str :=
  link_line result
    ++ match author result with
       | Some (c :: a) => lit "**Author:** " ++ (c :: a) ++ lit "  " ++ [10%N]
       | _ => []
       end
    ++ match publishedDate result with
       | Some (c :: d) =>
           lit "**Published:** " ++ toLocaleDateString (c :: d)
             ++ lit "  " ++ [10%N]
       | _ => []
       end
    ++ Summary.displaySummary markdown ++ [10%N; 10%N].

End DocumentText.

Definition minimal_section (result : ExaSearchResult) (raw : str) : str :=
  link_line result ++ firstn 200 raw ++ lit "..." ++ [10%N; 10%N].

Definition omitted_note (n : nat) : str :=
  if 10 <? n
  then lit "*And " ++ decimal (n - 10) ++ lit " more results...*"
         ++ [10%N; 10%N]
  else [].

(** * Properties *)

(** ** Trimming *)

Section TrimFacts.

Implicit Types s t : str.

Lemma trimStart_length s : length (trimStart s) <= length s.
Proof.
  induction s as [|c s IH]; simpl; [lia|].
  destruct (is_space c); simpl; lia.
Qed.

Lemma trimEnd_length s : length (trimEnd s) <= length s.
Proof.
  induction s as [|c s IH]; simpl; [lia|].
  destruct (trimEnd s); [destruct (is_space c)|]; simpl in *; lia.
Qed.

Lemma trim_length s : length (trim s) <= length s.
Proof.
  unfold trim. pose proof (trimEnd_length (trimStart s)).
  pose proof (trimStart_length s). lia.
Qed.

Lemma trimStart_clean s : starts_clean (trimStart s).
Proof.
  induction s as [|c s IH]; simpl; [exact I|].
  destruct (is_space c) eqn:E; [exact IH | exact E].
Qed.

Lemma trimStart_fixed s : starts_clean s -> trimStart s = s.
Proof. destruct s as [|c s]; simpl; [reflexivity | intros ->; reflexivity]. Qed.

Lemma trimEnd_clean s : starts_clean s -> starts_clean (trimEnd s).
Proof.
  destruct s as [|c s]; simpl; [trivial|]. intros Hc.
  destruct (trimEnd s); [rewrite Hc|]; exact Hc.
Qed.

Lemma trimEnd_idem s : trimEnd (trimEnd s) = trimEnd s.
Proof.
  induction s as [|c s IH]; simpl; [reflexivity|].
  destruct (trimEnd s) as [|d t] eqn:E.
  - destruct (is_space c) eqn:Ec; simpl; [reflexivity | now rewrite Ec].
  - change (trimEnd (c :: d :: t)) with
      (match trimEnd (d :: t) with
       | [] => if is_space c then [] else [c]
       | u => c :: u
       end).
    now rewrite IH.
Qed.

Lemma trim_clean s : starts_clean (trim s).
Proof. apply trimEnd_clean, trimStart_clean. Qed.

Lemma trim_idem s : trim (trim s) = trim s.
Proof.
  unfold trim at 1. rewrite (trimStart_fixed (trim s)) by apply trim_clean.
  unfold trim. apply trimEnd_idem.
Qed.

End TrimFacts.


(** ** The matcher and global replacement *)

Section RegexFacts.

Implicit Types (r : regex) (s rep : str) (p : char -> bool).

Lemma match_here_One_reject p r c s :
  p c = false -> match_here (One p :: r) (c :: s) = None.
Proof. simpl. now intros ->. Qed.

Lemma match_here_One_nil p r : match_here (One p :: r) [] = None.
Proof. reflexivity. Qed.

(** A pattern that starts with a mandatory character of class [p] matches
    nowhere in a string without such a character. *)
Lemma matches_in_no_first p r s :
  (forall c, In c s -> p c = false) -> Cleaner.matches_in (One p :: r) s = false.
Proof.
  induction s as [|c s IH]; intros H; cbn [Cleaner.matches_in].
  - rewrite match_here_One_nil. apply bool_decide_eq_false.
    intros [x Hx]. discriminate.
  - rewrite match_here_One_reject by (apply H; now left).
    rewrite IH by (intros; apply H; now right).
    rewrite orb_false_r. apply bool_decide_eq_false.
    intros [x Hx]. discriminate.
Qed.

(** Replacing a pattern that matches nowhere changes nothing. *)
Lemma replace_all_no_match r rep s :
  Cleaner.matches_in r s = false -> replace_all r rep s = s.
Proof.
  unfold replace_all.
  induction s as [|c s IH]; cbn [replace_from Cleaner.matches_in]; intros H.
  - apply bool_decide_eq_false in H. destruct (match_here r []); [|reflexivity].
    exfalso. apply H. eauto.
  - apply orb_false_iff in H as [H1 H2]. apply bool_decide_eq_false in H1.
    destruct (match_here r _) as [n|] eqn:E.
    + exfalso. apply H1. eauto.
    + now rewrite IH.
Qed.

Lemma match_star_run p s : match_here [Star p] s = Some (run_length p s).
Proof.
  induction s as [|c s IH]; [reflexivity|].
  change (match_here [Star p] (c :: s)) with
    (if p c
     then match match_here [Star p] s with
          | Some n => Some (S n)
          | None => Some 0
          end
     else Some 0).
  rewrite IH. simpl. now destruct (p c).
Qed.

Lemma match_plus_run p c s :
  match_here [One p; Star p] (c :: s) =
  if p c then Some (S (run_length p s)) else None.
Proof.
  change (match_here [One p; Star p] (c :: s)) with
    (if p c then S <$> match_here [Star p] s else None).
  now rewrite match_star_run.
Qed.

(** The scan of [/p+/g] and the run-by-run description agree, also in the
    middle of a run. *)
Lemma replace_plus_squash p (x : char) s :
  replace_from [One p; Star p] [x] s 0 = squash_from p x false s
  /\ replace_from [One p; Star p] [x] s (run_length p s)
     = squash_from p x true s.
Proof.
  induction s as [|c s [IH0 IHrun]].
  - split; reflexivity.
  - assert (H0 : replace_from [One p; Star p] [x] (c :: s) 0
                 = squash_from p x false (c :: s)).
    { cbn [replace_from]. rewrite match_plus_run. cbn [squash_from].
      destruct (p c); [|now rewrite IH0].
      now rewrite IHrun. }
    split; [exact H0|].
    cbn [run_length squash_from]. destruct (p c) eqn:E.
    + cbn [replace_from]. exact IHrun.
    + rewrite H0. cbn [squash_from]. now rewrite E.
Qed.

(** What is left after squashing: the replacement character, and the
    characters of the input outside the class. *)
Lemma squash_chars p (x : char) b s c :
  In c (squash_from p x b s) -> c = x \/ (In c s /\ p c = false).
Proof.
  revert b. induction s as [|d s IH]; intros b; simpl; [tauto|].
  destruct (p d) eqn:E.
  - destruct b; simpl.
    + intros H. apply IH in H. tauto.
    + intros [<-|H]; [now left | apply IH in H; tauto].
  - simpl. intros [<-|H]; [right; tauto | apply IH in H; tauto].
Qed.

(** A single-character pattern replaced by nothing filters the string. *)
Lemma replace_one_filter p s :
  replace_all [One p] [] s = List.filter (fun c => negb (p c)) s.
Proof.
  unfold replace_all. induction s as [|c s IH]; [reflexivity|].
  cbn [replace_from List.filter].
  change (match_here [One p] (c :: s)) with
    (if p c then S <$> Some 0 else None).
  destruct (p c); simpl; now rewrite IH.
Qed.

Lemma replace_spaces_collapse s :
  replace_all Cleaner.spaces_re [space] s = Cleaner.collapse_ws s.
Proof. apply replace_plus_squash. Qed.

Lemma collapse_spaces_only s c :
  In c (Cleaner.collapse_ws s) -> is_space c = true -> c = space.
Proof.
  intros H Hs. apply squash_chars in H as [H|[_ H]]; congruence.
Qed.

Lemma In_trimStart s c : In c (trimStart s) -> In c s.
Proof.
  induction s as [|d s IH]; simpl; [tauto|].
  destruct (is_space d); simpl; tauto.
Qed.

Lemma In_trimEnd s c : In c (trimEnd s) -> In c s.
Proof.
  induction s as [|d s IH]; simpl; [tauto|].
  destruct (trimEnd s); [destruct (is_space d)|]; simpl in *; tauto.
Qed.

Lemma In_trim s c : In c (trim s) -> In c s.
Proof. unfold trim. intros H. now apply In_trimStart, In_trimEnd. Qed.

End RegexFacts.

(** ** Summary extraction *)

Section SummaryFacts.

Import Summary.

Lemma stripped_trimmed cleanText : trim (stripped cleanText) = stripped cleanText.
Proof. unfold stripped. apply trim_idem. Qed.



(** The stripped text is made of characters of the input and of spaces; it
    has no marker and no newline. *)
Lemma stripped_chars cleanText c :
  In c (stripped cleanText) ->
  is_marker c = false /\ c <> newline /\ (c = space \/ In c cleanText).
Proof.
  unfold stripped. intros H. apply In_trim in H.
  unfold markers_re in H. rewrite replace_one_filter in H.
  unfold replace_all, newlines_re in H.
  rewrite (proj1 (replace_plus_squash _ _ _)) in H.
  apply squash_chars in H as [->|[H Hnl]].
  - repeat split; [discriminate | now left].
  - apply filter_In in H as [Hin Hm]. apply negb_true_iff in Hm.
    repeat split; [exact Hm | | now right].
    intros ->. discriminate.
Qed.




End SummaryFacts.

(** ** Structure cleaner *)

Section CleanerFacts.

Import Cleaner.

Implicit Types html s : str.

Lemma collapse_no_newline s : ~ In newline (collapse_ws s).
Proof.
  intros H. apply collapse_spaces_only in H; [discriminate | reflexivity].
Qed.

Lemma replace_blank_lines_id s :
  ~ In newline s -> replace_all blank_lines_re [newline] s = s.
Proof.
  intros H. apply replace_all_no_match.
  unfold blank_lines_re. apply matches_in_no_first.
  intros c Hc. unfold is_char. apply N.eqb_neq. intros ->. now apply H.
Qed.

(** The cleaner is its structure removals followed by whitespace
    normalisation. *)
Lemma cleanHtmlContent_normal_form html :
  cleanHtmlContent html = normalize_ws (strip_structures html).
Proof.
  destruct html as [|c html]; [reflexivity|].
  change (cleanHtmlContent (c :: html)) with
    (trim (replace_all blank_lines_re [newline]
             (replace_all spaces_re [space] (strip_structures (c :: html))))).
  rewrite replace_spaces_collapse.
  rewrite replace_blank_lines_id by apply collapse_no_newline.
  reflexivity.
Qed.

Lemma fold_replace_no_match (l : list regex) html :
  existsb (fun r => matches_in r html) l = false ->
  fold_left (fun h r => replace_all r [] h) l html = html.
Proof.
  induction l as [|r l IH]; simpl; [reflexivity|].
  intros H. apply orb_false_iff in H as [H1 H2].
  rewrite replace_all_no_match by exact H1. now apply IH.
Qed.

Lemma strip_structures_untargeted html :
  targeted html = false -> strip_structures html = html.
Proof. apply fold_replace_no_match. Qed.

Lemma ci_lt_sign c : c <> lt_sign -> ci lt_sign c = false.
Proof.
  unfold ci, upcase, lt_sign. intros Hc. simpl.
  destruct (c <? 128)%N; [simpl|reflexivity].
  apply N.eqb_neq.
  destruct ((97 <=? c) && (c <=? 122))%N eqn:E; [|exact Hc].
  apply andb_true_iff in E as [E1 E2].
  apply N.leb_le in E1, E2. lia.
Qed.

Lemma removal_patterns_open_tag :
  Forall (fun r => exists r', r = One (ci lt_sign) :: r') removal_patterns.
Proof. repeat constructor; eexists; reflexivity. Qed.

(** Text without any [<] contains none of the targeted structures. *)
Lemma plain_text_untargeted html :
  (forall c, In c html -> c <> lt_sign) -> targeted html = false.
Proof.
  intros Hplain. apply not_true_is_false. intros H.
  apply existsb_exists in H as (r & Hin & Hm).
  pose proof removal_patterns_open_tag as Hall.
  rewrite List.Forall_forall in Hall. destruct (Hall r Hin) as [r' ->].
  rewrite matches_in_no_first in Hm; [discriminate|].
  intros c Hc. apply ci_lt_sign, Hplain, Hc.
Qed.

(** C8.  The cleaner is a total function from strings to strings, and on
    an input in which none of its structure patterns (script, style, nav,
    header, footer, aside, ad/share/social containers, logo/icon images)
    matches, its output is the input with every whitespace run collapsed to
    one space and the ends trimmed. *)
Theorem cleanHtmlContent_untargeted (html : str) :
  targeted html = false ->
  cleanHtmlContent html = normalize_ws html.
Proof.
  intros H. rewrite cleanHtmlContent_normal_form.
  now rewrite strip_structures_untargeted.
Qed.

Lemma cleanHtmlContent_untargeted_witness :
  targeted plain_sample = false
  /\ cleanHtmlContent plain_sample = normalize_ws plain_sample.
Proof.
  assert (H : targeted plain_sample = false) by (vm_compute; reflexivity).
  split; [exact H|]. exact (cleanHtmlContent_untargeted plain_sample H).
Defined.

(** Whitespace normalisation at work, and two malformed inputs: a block that
    is never closed is left alone, a stray closing tag likewise. *)
Example cleanHtmlContent_sample :
  cleanHtmlContent plain_sample = lit "Plain text, no markup.".
Proof. vm_compute. reflexivity. Qed.

Example cleanHtmlContent_malformed :
  cleanHtmlContent (lit "<script>never closed <b>x") = lit "<script>never closed <b>x"
  /\ cleanHtmlContent (lit "a</nav>b <nav>c</nav>d") = lit "a</nav>b d".
Proof. vm_compute. split; reflexivity. Qed.

Lemma cleanHtmlContent_plain_text html :
  (forall c, In c html -> c <> lt_sign) ->
  cleanHtmlContent html = normalize_ws html.
Proof.
  intros H. rewrite cleanHtmlContent_normal_form.
  now rewrite strip_structures_untargeted by now apply plain_text_untargeted.
Qed.

(** C9.  The whitespace step of the cleaner replaces every maximal run of
    whitespace, newlines included, by one space; hence the blank-line
    replacement that follows changes nothing, and the output of the cleaner
    never contains a newline: its only whitespace characters are single
    spaces. *)
Theorem cleaner_whitespace_step (html : str) :
  replace_all spaces_re [space] html = collapse_ws html
  /\ ~ In newline (replace_all spaces_re [space] html)
  /\ replace_all blank_lines_re [newline]
       (replace_all spaces_re [space] html)
     = replace_all spaces_re [space] html
  /\ ~ In newline (cleanHtmlContent html)
  /\ (forall c, In c (cleanHtmlContent html) -> is_space c = true -> c = space).
Proof.
  assert (Hstep : replace_all spaces_re [space] html = collapse_ws html)
    by apply replace_spaces_collapse.
  split; [exact Hstep|]. rewrite Hstep.
  split; [apply collapse_no_newline|].
  split; [apply replace_blank_lines_id, collapse_no_newline|].
  rewrite cleanHtmlContent_normal_form. unfold normalize_ws.
  split.
  - intros H. apply In_trim in H. revert H. apply collapse_no_newline.
  - intros c H. apply In_trim in H. revert H. apply collapse_spaces_only.
Qed.

End CleanerFacts.

(** ** Markdown conversion *)

Section ConvertFacts.

Implicit Types (content mimeType : str) (env : option Env).

Lemma convertToMarkdown_blank content env mimeType :
  ~ has_content content ->
  convertToMarkdown (Some content) env mimeType = Ok (VString content).
Proof.
  intros H. unfold convertToMarkdown.
  destruct (bool_decide (content = [])) eqn:E1; [reflexivity|].
  destruct (bool_decide (trim content = [])) eqn:E2; [reflexivity|].
  exfalso. apply H. apply bool_decide_eq_false in E1, E2. now split.
Qed.

Lemma convertToMarkdown_guard content :
  has_content content ->
  bool_decide (content = []) || bool_decide (trim content = []) = false.
Proof.
  intros [H1 H2]. apply orb_false_iff.
  split; now apply bool_decide_eq_false.
Qed.

(** Without a backend the text comes back as it was received. *)
Lemma convertToMarkdown_unavailable content env mimeType :
  env ≫= AI = None ->
  convertToMarkdown (Some content) env mimeType = Ok (VString content).
Proof.
  intros H. unfold convertToMarkdown. rewrite H.
  now destruct (bool_decide (content = []) || bool_decide (trim content = [])).
Qed.

(** With a backend, the result is the converted markdown when the gateway
    yields one and the received text otherwise. *)
Lemma convertToMarkdown_available content env mimeType ai :
  has_content content -> env ≫= AI = Some ai ->
  convertToMarkdown (Some content) env mimeType =
  Ok (default (VString content)
        (converted (toMarkdown ai
           (conversion_request (processed content mimeType) mimeType)))).
Proof.
  intros Hc Hai. unfold convertToMarkdown.
  rewrite (convertToMarkdown_guard _ Hc), Hai.
  unfold conversion_request, processed.
  destruct (toMarkdown ai _) as [e|[[|[conversion|] rest]|]]; try reflexivity.
  simpl.
  now destruct (bool_decide (format conversion = VString (lit "markdown"))
                && truthy (data conversion)).
Qed.

(** The normaliser never raises. *)
Lemma convertToMarkdown_total (text : option str) env mimeType :
  exists v, convertToMarkdown text env mimeType = Ok v.
Proof.
  destruct text as [content|]; [|eexists; reflexivity].
  destruct (decide (has_content content)) as [Hc|Hc].
  - destruct (env ≫= AI) as [ai|] eqn:Hai.
    + eexists. exact (convertToMarkdown_available _ _ _ ai Hc Hai).
    + eexists. exact (convertToMarkdown_unavailable _ _ _ Hai).
  - eexists. exact (convertToMarkdown_blank _ _ _ Hc).
Qed.

End ConvertFacts.

Section ConvertClaims.

Import Cleaner.

(** C4, as the code has it.  For every text that is neither empty nor
    whitespace only, with the HTML mime type, when no conversion backend is
    configured the normaliser returns the text exactly as it received it:
    the availability check comes before the cleaner, so the result is the
    raw input and not the cleaned one. *)
Theorem unavailable_gateway_returns_raw (content : str) (env : option Env) :
  has_content content -> env ≫= AI = None ->
  convertToMarkdown (Some content) env text_html = Ok (VString content).
Proof. intros _ H. now apply convertToMarkdown_unavailable. Qed.

Lemma unavailable_gateway_returns_raw_witness :
  has_content script_page /\ None ≫= AI = None
  /\ convertToMarkdown (Some script_page) None text_html
     = Ok (VString script_page).
Proof.
  assert (Hc : has_content script_page) by (split; discriminate).
  split; [exact Hc|]. split; [reflexivity|].
  apply (unavailable_gateway_returns_raw script_page None Hc). reflexivity.
Defined.

(** C4 as stated fails: without a backend a page with a script block comes
    back with the script block, while the cleaner would have reduced it to
    its text; the two differ by more than whitespace. *)
Lemma unavailable_gateway_not_cleaned :
  has_content script_page
  /\ cleanHtmlContent script_page = lit "hi"
  /\ convertToMarkdown (Some script_page) None text_html
     = Ok (VString script_page)
  /\ ~ (exists out,
          convertToMarkdown (Some script_page) None text_html = Ok (VString out)
          /\ normalize_ws out = normalize_ws (cleanHtmlContent script_page)).
Proof.
  split; [split; discriminate|].
  split; [vm_compute; reflexivity|].
  split; [reflexivity|].
  intros (out & Hout & Hws).
  change (Ok (VString script_page) = Ok (VString out)) in Hout.
  injection Hout as <-. vm_compute in Hws. discriminate.
Qed.

(** C5, as the code has it.  With a backend configured, the normaliser
    returns the converted markdown exactly when the answer is a non-empty
    list whose first record has the format tag [markdown] and non-empty
    data; every other answer, a [null] first entry, and every error or
    time-out is a failed conversion, after which the text is returned as it
    was received (the original text, also when the cleaned text was what
    the backend got); and no call of the normaliser raises. *)
Theorem failed_conversion_returns_original
    (content mimeType : str) (env : option Env) (ai : AiBinding) :
  has_content content -> env ≫= AI = Some ai ->
  let outcome :=
    toMarkdown ai (conversion_request (processed content mimeType) mimeType) in
  let answer := convertToMarkdown (Some content) env mimeType in
  (forall e, outcome = AiRejects e -> answer = Ok (VString content))
  /\ (outcome = AiResolves None -> answer = Ok (VString content))
  /\ (outcome = AiResolves (Some []) -> answer = Ok (VString content))
  /\ (forall rest, outcome = AiResolves (Some (None :: rest)) ->
      answer = Ok (VString content))
  /\ (forall conversion rest,
        outcome = AiResolves (Some (Some conversion :: rest)) ->
        format conversion <> VString (lit "markdown")
        \/ truthy (data conversion) = false ->
        answer = Ok (VString content))
  /\ (forall conversion rest,
        outcome = AiResolves (Some (Some conversion :: rest)) ->
        format conversion = VString (lit "markdown") ->
        truthy (data conversion) = true ->
        answer = Ok (data conversion))
  /\ (forall v, answer = Ok v -> v <> VString content ->
      exists conversion rest,
        outcome = AiResolves (Some (Some conversion :: rest))
        /\ format conversion = VString (lit "markdown")
        /\ truthy (data conversion) = true /\ v = data conversion)
  /\ (forall text' env' mimeType',
        exists v, convertToMarkdown text' env' mimeType' = Ok v).
Proof.
  intros Hc Hai outcome answer.
  assert (Hans : answer = Ok (default (VString content) (converted outcome)))
    by exact (convertToMarkdown_available _ _ _ ai Hc Hai).
  repeat split.
  - intros e He. now rewrite Hans, He.
  - intros He. now rewrite Hans, He.
  - intros He. now rewrite Hans, He.
  - intros rest He. now rewrite Hans, He.
  - intros conversion rest He Hbad. rewrite Hans, He. simpl.
    destruct Hbad as [Hf|Hd].
    + now rewrite bool_decide_eq_false_2.
    + now rewrite Hd, andb_false_r.
  - intros conversion rest He Hf Hd. rewrite Hans, He. simpl.
    now rewrite bool_decide_eq_true_2, Hd.
  - intros v Hv Hne. rewrite Hans in Hv.
    destruct outcome as [e|[[|[conversion|] rest]|]]; simpl in Hv;
      try congruence.
    destruct (bool_decide (format conversion = VString (lit "markdown")))
      eqn:Ef; simpl in Hv; [|congruence].
    destruct (truthy (data conversion)) eqn:Ed; simpl in Hv; [|congruence].
    apply bool_decide_eq_true in Ef.
    exists conversion, rest. repeat split; congruence.
  - intros. apply convertToMarkdown_total.
Qed.

Lemma failed_conversion_returns_original_witness :
  has_content script_page
  /\ failing_env ≫= AI
     = Some {| toMarkdown := fun _ => AiRejects (Rejected (lit "timeout")) |}
  /\ convertToMarkdown (Some script_page) failing_env text_html
     = Ok (VString script_page).
Proof.
  assert (Hc : has_content script_page) by (split; discriminate).
  split; [exact Hc|]. split; [reflexivity|].
  refine (proj1 (failed_conversion_returns_original
                   script_page text_html failing_env _ Hc eq_refl)
            (Rejected (lit "timeout")) eq_refl).
Defined.

(** C5 as stated fails where it names the cleaned text as the fallback: a
    page with a script block and the HTML mime type is sent to the backend
    cleaned, the backend fails, and the page comes back with its script
    block. *)
Lemma failed_conversion_not_cleaned :
  has_content script_page
  /\ processed script_page text_html = lit "hi"
  /\ converted (AiRejects (Rejected (lit "timeout"))) = None
  /\ convertToMarkdown (Some script_page) failing_env text_html
     = Ok (VString script_page)
  /\ convertToMarkdown (Some script_page) failing_env text_html
     <> Ok (VString (processed script_page text_html)).
Proof.
  split; [split; discriminate|].
  split; [vm_compute; reflexivity|].
  split; [reflexivity|].
  split; [vm_compute; reflexivity|].
  vm_compute. discriminate.
Qed.

End ConvertClaims.

(** ** Result aggregation *)

Section AggregatorFacts.

Variable toLocaleDateString : str -> str.

Local Abbreviation process_result := (process_result toLocaleDateString).
Local Abbreviation rendered := (rendered toLocaleDateString).
Local Abbreviation item_section := (item_section toLocaleDateString).
Local Abbreviation formatSearchResultsToMarkdown :=
  (formatSearchResultsToMarkdown toLocaleDateString).

Implicit Types (env : option Env) (result : ExaSearchResult)
  (results : list ExaSearchResult) (markdown query : str).

(** The successful path of one iteration appends the item's section. *)
Lemma process_result_section env result markdown md :
  convertToMarkdown (text result) env text_html = Ok (VString md) ->
  process_result env result markdown
  = (Ok tt, markdown ++ item_section result md).
Proof.
  intros H. unfold process_result, Agg.try_catch, Agg.bind, Agg.lift.
  rewrite H. cbn [as_string]. unfold item_section, Agg.when, Agg.append, Agg.ret.
  destruct (author result) as [[|c a]|], (publishedDate result) as [[|d p]|];
    cbn [nonempty default]; rewrite <- ?app_assoc; reflexivity.
Qed.

(** When normalisation does not yield a string the iteration raises before
    it appends anything, and the handler appends the minimal rendering. *)
Lemma process_result_fallback env result markdown raw :
  text result = Some raw ->
  normalized env result = None ->
  process_result env result markdown
  = (Ok tt, markdown ++ fallback_section result raw).
Proof.
  intros Ht Hn. unfold process_result, Agg.try_catch, Agg.bind, Agg.lift.
  unfold normalized in Hn. rewrite Ht in *. unfold fallback_section.
  destruct (convertToMarkdown (Some raw) env text_html) as [[| | | |md]|e];
    try discriminate; cbn [as_string value_of]; unfold Agg.append;
    rewrite <- ?app_assoc; reflexivity.
Qed.

Lemma process_result_rendered env result markdown :
  is_Some (text result) ->
  process_result env result markdown = (Ok tt, markdown ++ rendered env result).
Proof.
  intros [raw Ht]. unfold rendered.
  destruct (normalized env result) as [md|] eqn:Hn.
  - apply process_result_section. unfold normalized in Hn.
    destruct (convertToMarkdown (text result) env text_html) as [[| | | |s]|e];
      congruence.
  - rewrite Ht. now apply process_result_fallback.
Qed.

Lemma for_of_rendered env results markdown :
  Forall (fun result => is_Some (text result)) results ->
  Agg.for_of results (process_result env) markdown
  = (Ok tt, markdown ++ concat (map (rendered env) results)).
Proof.
  intros H. revert markdown.
  induction H as [|result results Hr _ IH]; intros markdown; simpl.
  - now rewrite app_nil_r.
  - unfold Agg.bind. rewrite process_result_rendered by exact Hr.
    rewrite IH. now rewrite <- app_assoc.
Qed.

(** Closed form of the aggregator on items whose text is a string. *)
Lemma formatSearchResults_closed_form env results query :
  results <> [] ->
  Forall (fun result => is_Some (text result)) results ->
  formatSearchResultsToMarkdown (Some results) query env
  = Ok (results_header query
          ++ concat (map (rendered env) (firstn 10 results))
          ++ overflow_note (length results)).
Proof.
  intros Hne Hall. destruct results as [|r rs]; [congruence|].
  unfold formatSearchResultsToMarkdown, Agg.bind.
  rewrite for_of_rendered by now apply Forall_take.
  unfold overflow_note, Agg.when.
  destruct (10 <? length (r :: rs)); cbn [Agg.append Agg.ret Agg.current fst];
    rewrite <- ?app_assoc, ?app_nil_r; reflexivity.
Qed.

Lemma typed_env_normalized env result :
  typed_env env -> is_Some (text result) ->
  exists md, convertToMarkdown (text result) env text_html = Ok (VString md).
Proof.
  intros Htyped [raw Ht]. rewrite Ht.
  destruct (decide (has_content raw)) as [Hc|Hc];
    [|eexists; exact (convertToMarkdown_blank _ _ _ Hc)].
  destruct (env ≫= AI) as [ai|] eqn:Hai;
    [|eexists; exact (convertToMarkdown_unavailable _ _ _ Hai)].
  rewrite (convertToMarkdown_available _ _ _ ai Hc Hai).
  destruct (converted _) as [v|] eqn:Hv; [|eexists; reflexivity].
  destruct (Htyped ai _ Hai v Hv) as [md ->]. now exists md.
Qed.

Lemma rendered_section env result md :
  convertToMarkdown (text result) env text_html = Ok (VString md) ->
  rendered env result = item_section result md.
Proof. intros H. unfold rendered, normalized. now rewrite H. Qed.

(** The failure boundary where it works: for every list of items whose
    text is a string, whatever the backend does, no exception leaves the
    aggregator and every one of the first ten items is rendered; an item
    whose normalisation or summarisation raises (the normaliser does not
    yield a string) is rendered by the minimal fallback, and the other items
    are rendered as usual, in their places. *)
Theorem item_failure_is_isolated env query results :
  Forall (fun result => is_Some (text result)) results ->
  exists (doc : str) (sections : list str),
    formatSearchResultsToMarkdown (Some results) query env = Ok doc
    /\ (results <> [] ->
        doc = results_header query ++ concat sections
                ++ overflow_note (length results))
    /\ Forall2
         (fun result section =>
            exists raw, text result = Some raw
              /\ match convertToMarkdown (text result) env text_html with
                 | Ok (VString md) => section = item_section result md
                 | _ => section = fallback_section result raw
                 end)
         (firstn 10 results) sections.
Proof.
  intros Hall.
  exists (match results with
          | [] => no_results_for query
          | _ => results_header query
                   ++ concat (map (rendered env) (firstn 10 results))
                   ++ overflow_note (length results)
          end), (map (rendered env) (firstn 10 results)).
  split; [|split].
  - destruct results as [|r rs] eqn:E; [reflexivity|].
    rewrite <- E in *. apply formatSearchResults_closed_form; [|exact Hall].
    rewrite E. discriminate.
  - destruct results; [congruence | reflexivity].
  - apply Forall2_fmap_r, Forall_Forall2_diag.
    apply Forall_take with (n := 10) in Hall. eapply Forall_impl; [exact Hall|].
    intros result [raw Ht]. exists raw. split; [exact Ht|].
    unfold rendered, normalized. rewrite Ht.
    destruct (convertToMarkdown (Some raw) env text_html) as [[| | | |md]|e];
      reflexivity.
Qed.

Lemma literal_chars_in_query (before after query : str) (c : char) :
  ~ In c before -> ~ In c after ->
  In c (before ++ query ++ after) -> In c query.
Proof.
  intros Hb Ha H. apply in_app_or in H as [H|H]; [tauto|].
  apply in_app_or in H as [H|H]; tauto.
Qed.

(** C7.  For every query, the aggregator applied to an absent or empty list
    of items returns, without raising, the message that consists of a fixed
    text around the quoted query: it contains the query, it has no line break
    and no heading marker other than those of the query itself, hence no
    header and no item section. *)
Theorem empty_results_message env query :
  formatSearchResultsToMarkdown None query env = Ok (no_results_for query)
  /\ formatSearchResultsToMarkdown (Some []) query env
     = Ok (no_results_for query)
  /\ no_results_for query
     = lit "No search results found for " ++ [dquote] ++ query ++ [dquote]
         ++ lit "."
  /\ occurs_in query (no_results_for query)
  /\ (forall c, In c (no_results_for query) ->
      c = newline \/ c = 35%N -> In c query)
  /\ (~ In newline query -> ~ In newline (no_results_for query)).
Proof.
  assert (Hchars : forall c, In c (no_results_for query) ->
                     c = newline \/ c = 35%N -> In c query).
  { intros c Hin Hc. unfold no_results_for in Hin.
    rewrite (app_assoc _ [dquote]) in Hin.
    eapply literal_chars_in_query; [| |exact Hin];
      vm_compute; destruct Hc as [-> | ->]; intuition discriminate. }
  split; [reflexivity|]. split; [reflexivity|]. split; [reflexivity|].
  split; [|split; [exact Hchars|]].
  - exists (lit "No search results found for " ++ [dquote]), ([dquote] ++ lit ".").
    unfold no_results_for. now rewrite <- !app_assoc.
  - intros Hq Hin. apply Hq. apply (Hchars newline Hin). now left.
Qed.

End AggregatorFacts.

Lemma item_failure_is_isolated_witness :
  Forall (fun result => is_Some (text result)) [plain_item; plain_item]
  /\ exists doc,
       formatSearchResultsToMarkdown (fun d => d)
         (Some [plain_item; plain_item]) (lit "q") number_env = Ok doc.
Proof.
  assert (H : Forall (fun result => is_Some (text result))
                [plain_item; plain_item])
    by (repeat constructor; eexists; reflexivity).
  split; [exact H|].
  destruct (item_failure_is_isolated (fun d => d) number_env (lit "q") _ H)
    as (doc & sections & Hdoc & _).
  exists doc. exact Hdoc.
Defined.

(** With a backend whose markdown record carries a number, summarisation
    raises and the item is rendered by the fallback. *)
Example number_backend_falls_back :
  formatSearchResultsToMarkdown (fun d => d) (Some [plain_item]) (lit "q")
    number_env
  = Ok (results_header (lit "q")
          ++ fallback_section plain_item
               (lit "Plain <b>text</b>, with an unclosed <div tag.")).
Proof. vm_compute. reflexivity. Qed.

(** C1, at the failing input: fifteen items of which the first has the
    text [null].  The normaliser hands the [null] back, summarisation
    raises, and the handler of the item (the fallback to basic formatting)
    raises in its turn when it takes the first 200 code units of that text:
    the exception leaves the aggregator and the fourteen well-formed items
    that follow are not rendered, where the specification asks that one bad
    item never stops the others. *)
Lemma null_text_item_aborts_aggregation :
  formatSearchResultsToMarkdown (fun d => d)
    (Some (null_text_item :: repeat plain_item 14)) (lit "q") None
  = Throw TypeError
  /\ ~ (exists doc,
          formatSearchResultsToMarkdown (fun d => d)
            (Some (null_text_item :: repeat plain_item 14)) (lit "q") None
          = Ok doc).
Proof.
  assert (H : formatSearchResultsToMarkdown (fun d => d)
                (Some (null_text_item :: repeat plain_item 14)) (lit "q") None
              = Throw TypeError) by (vm_compute; reflexivity).
  split; [exact H|]. intros [doc Hdoc]. rewrite H in Hdoc. discriminate.
Qed.

(** ** The [web_search_exa] handler *)

Section HandlerFacts.

Import WebSearch.

Variable toLocaleDateString : str -> str.
Variable error_text : exn -> str.

Local Abbreviation web_search_exa :=
  (web_search_exa toLocaleDateString error_text).
Local Abbreviation process_result := (process_result toLocaleDateString).
Local Abbreviation formatSearchResultsToMarkdown :=
  (formatSearchResultsToMarkdown toLocaleDateString).

(** An iteration of the aggregator only appends to [markdown], whether it
    raises or not. *)
Lemma process_result_extends env result markdown :
  exists suffix, snd (process_result env result markdown) = markdown ++ suffix.
Proof.
  unfold process_result, Agg.try_catch, Agg.bind, Agg.lift.
  destruct (convertToMarkdown (text result) env text_html) as [[| | | |md]|e];
    cbn [as_string].
  5: { unfold Agg.when, Agg.append, Agg.ret.
       destruct (nonempty (author result)), (nonempty (publishedDate result));
         cbn [snd]; rewrite <- ?app_assoc; eexists; reflexivity. }
  all: unfold Agg.append; destruct (text result) as [raw|];
    cbn [value_of as_string snd]; rewrite <- ?app_assoc; eexists; reflexivity.
Qed.

Lemma for_of_extends env results markdown :
  exists suffix,
    snd (Agg.for_of results (process_result env) markdown) = markdown ++ suffix.
Proof.
  revert markdown. induction results as [|r rs IH]; intros markdown.
  - exists []. simpl. now rewrite app_nil_r.
  - cbn [Agg.for_of]. unfold Agg.bind.
    destruct (process_result_extends env r markdown) as [s1 H1].
    destruct (process_result env r markdown) as [[[]|e] md1]; cbn [snd] in H1;
      subst md1.
    + destruct (IH (markdown ++ s1)) as [s2 H2]. exists (s1 ++ s2).
      now rewrite H2, app_assoc.
    + now exists s1.
Qed.

(** A document for a non-empty list starts with the header. *)
Lemma formatSearchResults_header env query r rs doc :
  formatSearchResultsToMarkdown (Some (r :: rs)) query env = Ok doc ->
  exists rest, doc = results_header query ++ rest.
Proof.
  unfold formatSearchResultsToMarkdown, Agg.bind.
  destruct (for_of_extends env (firstn 10 (r :: rs)) (results_header query))
    as [s1 H1].
  destruct (Agg.for_of _ _ _) as [[[]|e] md1]; cbn [snd] in H1; subst md1;
    [|discriminate].
  unfold Agg.when. destruct (10 <? length (r :: rs));
    cbn [Agg.append Agg.ret Agg.current fst]; intros H; inversion H; subst doc.
  - eexists. now rewrite <- app_assoc.
  - now exists s1.
Qed.

Lemma first_char_differs (a b : str) :
  hd 0%N a <> hd 0%N b -> a <> b.
Proof. congruence. Qed.

(** C10.  When the search succeeds without results (no data, no results
    field, or an empty list) the handler answers the fixed message, the same
    for every query, without the error flag; and whatever the upstream call
    does, the handler never answers the aggregator's message for an empty
    input, which names the query. *)
Theorem empty_upstream_fixed_message query env :
  let fixed :=
    {| content_text :=
         lit "No search results found. Please try a different query.";
       isError := false |} in
  web_search_exa query env (PostResolves None) = fixed
  /\ web_search_exa query env (PostResolves (Some {| results := None |}))
     = fixed
  /\ web_search_exa query env (PostResolves (Some {| results := Some [] |}))
     = fixed
  /\ (forall query',
        web_search_exa query' env (PostResolves (Some {| results := Some [] |}))
        = web_search_exa query env (PostResolves (Some {| results := Some [] |})))
  /\ (forall post query',
        content_text (web_search_exa query env post) <> no_results_for query').
Proof.
  intros fixed. repeat split.
  intros post query'. unfold web_search_exa.
  destruct post as [e|e|[[[[|r rs]|]]|]];
    cbn [mbind option_bind results content_text generic_error_result
         axios_error_result no_results_text].
  - apply first_char_differs. vm_compute. discriminate.
  - apply first_char_differs. vm_compute. discriminate.
  - intros H. apply (f_equal (fun l => nth 23 l 0%N)) in H.
    vm_compute in H. discriminate.
  - destruct (formatSearchResultsToMarkdown (Some (r :: rs)) query env)
      as [doc|e] eqn:E; cbn [content_text generic_error_result].
    + apply formatSearchResults_header in E as [rest ->].
      apply first_char_differs. vm_compute. discriminate.
    + apply first_char_differs. vm_compute. discriminate.
  - intros H. apply (f_equal (fun l => nth 23 l 0%N)) in H.
    vm_compute in H. discriminate.
  - intros H. apply (f_equal (fun l => nth 23 l 0%N)) in H.
    vm_compute in H. discriminate.
Qed.

End HandlerFacts.

(** ** Tool activation *)

Section WorkerFacts.

Import Worker.

Implicit Types (catalog : gmap str ToolInfo) (toolId s : str)
  (toolsParam : option ToolsParam).

Lemma nonempty_length (x : str) : 0 < length x <-> x <> [].
Proof. destruct x; simpl; split; intros; try lia; congruence. Qed.

(** The ids parsed from a comma-separated selection are the ids it asks
    for. *)
Lemma parsed_string_requested s toolId :
  toolId ∈ default [] (parsedEnabledTools (Some (ToolsString s)))
  <-> requested s toolId.
Proof.
  unfold requested. destruct s as [|c s].
  - simpl. split.
    + intros H. inversion H.
    + intros [Hne (piece & Hp & Ht)]. apply list_elem_of_singleton in Hp.
      subst piece. now destruct Hne.
  - cbn [parsedEnabledTools from_option]. unfold Datatypes.id.
    rewrite list_elem_of_filter, nonempty_length, list_elem_of_In, in_map_iff.
    split.
    + intros [Hne (piece & Ht & Hp)]. split; [exact Hne|].
      exists piece. now rewrite list_elem_of_In.
    + intros [Hne (piece & Hp & Ht)]. split; [exact Hne|].
      exists piece. now rewrite <- list_elem_of_In.
Qed.



(** The two cases of the specification on the registry of the worker: an
    explicit list activates exactly its ids, whatever their defaults; the
    empty list falls back to the ids enabled by default. *)
Example explicit_list_overrides_defaults :
  registeredTools (Some (ToolsArray [lit "crawling_exa"; lit "deep_search_exa"]))
  = [lit "deep_search_exa"; lit "crawling_exa"].
Proof. vm_compute. reflexivity. Qed.

Example empty_list_falls_back :
  registeredTools (Some (ToolsArray [])) = registeredTools None
  /\ registeredTools (Some (ToolsString (lit " , ,"))) = registeredTools None
  /\ registeredTools None = [lit "web_search_exa"; lit "get_code_context_exa"].
Proof. vm_compute. repeat split. Qed.

End WorkerFacts.

(** * Further properties of the code *)

(** ** Lengths and shapes of replaced and trimmed strings *)

Section ShapeFacts.

Implicit Types (r : regex) (s t : str) (p : char -> bool).

Lemma replace_from_remove_length r s k :
  length (replace_from r [] s k) <= length s.
Proof.
  revert k. induction s as [|c s IH]; intros k.
  - simpl. destruct k; [destruct (match_here r [])|]; simpl; lia.
  - cbn [replace_from]. destruct k as [|k].
    + destruct (match_here r _) as [[|n]|]; simpl;
        [pose proof (IH 0) | pose proof (IH n) | pose proof (IH 0)]; lia.
    + pose proof (IH k). simpl. lia.
Qed.

Lemma squash_length p (x : char) b s :
  length (squash_from p x b s) <= length s.
Proof.
  revert b. induction s as [|c s IH]; intros b; simpl; [lia|].
  destruct (p c); [destruct b|]; simpl;
    [pose proof (IH true) | pose proof (IH true) | pose proof (IH false)]; lia.
Qed.

Lemma squash_outside p (x : char) s :
  (forall c, In c s -> p c = false) -> squash_from p x false s = s.
Proof.
  induction s as [|c s IH]; intros H; simpl; [reflexivity|].
  rewrite (H c) by now left. rewrite IH; [reflexivity|].
  intros d Hd. apply H. now right.
Qed.

Lemma squash_from_outside p (x : char) b s :
  starts_outside p s -> squash_from p x b s = squash_from p x false s.
Proof. destruct s as [|c s]; simpl; [reflexivity|]. now intros ->. Qed.

(** After squashing, the characters of the class stand alone. *)
Lemma squash_no_adjacent p (x : char) b s :
  no_adjacent p (squash_from p x b s)
  /\ (b = true -> starts_outside p (squash_from p x b s)).
Proof.
  revert b. induction s as [|c s IH]; intros b; simpl; [tauto|].
  destruct (p c) eqn:E.
  - destruct b.
    + apply IH.
    + destruct (IH true) as [H1 H2]. specialize (H2 eq_refl).
      split; [|discriminate]. cbn [no_adjacent]. split; [|exact H1].
      destruct (squash_from p x true s) as [|d u]; [exact I|].
      simpl in H2. intros [_ Hd]. congruence.
  - destruct (IH false) as [H1 _]. split; [|intros _; exact E].
    cbn [no_adjacent]. split; [|exact H1].
    destruct (squash_from p x false s); [exact I|]. intros [Hc _]. congruence.
Qed.

Lemma no_adjacent_tail p c s : no_adjacent p (c :: s) -> no_adjacent p s.
Proof. cbn [no_adjacent]. tauto. Qed.

Lemma trimStart_suffix s : exists t, s = t ++ trimStart s.
Proof.
  induction s as [|c s [t IH]]; [now exists []|]. simpl.
  destruct (is_space c); [|now exists []].
  exists (c :: t). simpl. now rewrite <- IH.
Qed.

Lemma trimEnd_prefix s : exists t, s = trimEnd s ++ t.
Proof.
  induction s as [|c s [t IH]]; [now exists []|]. simpl.
  destruct (trimEnd s) as [|d u] eqn:E.
  - destruct (is_space c); [now exists (c :: s) | exists s; reflexivity].
  - exists t. simpl. simpl in IH. now rewrite <- IH.
Qed.

Lemma no_adjacent_app_r p s t : no_adjacent p (s ++ t) -> no_adjacent p t.
Proof.
  induction s as [|c s IH]; [trivial|]. intros H. apply IH.
  now apply no_adjacent_tail in H.
Qed.

Lemma no_adjacent_app_l p s t : no_adjacent p (s ++ t) -> no_adjacent p s.
Proof.
  induction s as [|c s IH]; [intros _; exact I|]. cbn [app no_adjacent].
  intros [H1 H2]. split; [|now apply IH].
  destruct s as [|d s]; [exact I|]. exact H1.
Qed.

Lemma trimStart_no_adjacent p s : no_adjacent p s -> no_adjacent p (trimStart s).
Proof.
  destruct (trimStart_suffix s) as [t Ht]. intros H. rewrite Ht in H.
  now apply no_adjacent_app_r in H.
Qed.

Lemma trimEnd_no_adjacent p s : no_adjacent p s -> no_adjacent p (trimEnd s).
Proof.
  destruct (trimEnd_prefix s) as [t Ht]. intros H. rewrite Ht in H.
  now apply no_adjacent_app_l in H.
Qed.

Lemma trimEnd_ends_clean s : ends_clean (trimEnd s).
Proof.
  induction s as [|c s IH]; intros t d H.
  - destruct t; discriminate.
  - simpl in H. destruct (trimEnd s) as [|e u] eqn:E.
    + destruct (is_space c) eqn:Ec; [destruct t; discriminate|].
      destruct t as [|? [|? ?]]; try discriminate. now injection H as <-.
    + destruct t as [|? t]; [discriminate|]. injection H as <- H.
      now apply (IH t d).
Qed.

Lemma trimEnd_fixed s : ends_clean s -> trimEnd s = s.
Proof.
  induction s as [|c s IH]; [reflexivity|]. intros H. simpl.
  destruct s as [|d s].
  - simpl. now rewrite (H [] c eq_refl).
  - rewrite IH.
    + reflexivity.
    + intros t e Ht. apply (H (c :: t) e). simpl. now rewrite Ht.
Qed.

Lemma trim_fixed s : starts_clean s -> ends_clean s -> trim s = s.
Proof.
  intros H1 H2. unfold trim. rewrite trimStart_fixed by exact H1.
  now apply trimEnd_fixed.
Qed.

Lemma firstn_starts_clean n s : starts_clean s -> starts_clean (firstn n s).
Proof. destruct n, s; simpl; trivial. Qed.

End ShapeFacts.

(** ** More on the structure cleaner *)

Section CleanerShape.

Import Cleaner.

Implicit Types html s : str.

Lemma strip_structures_length html :
  length (strip_structures html) <= length html.
Proof.
  unfold strip_structures. generalize removal_patterns. intros l.
  revert html. induction l as [|r l IH]; intros html; simpl; [lia|].
  pose proof (IH (replace_all r [] html)).
  pose proof (replace_from_remove_length r html 0).
  unfold replace_all in *. lia.
Qed.

Lemma normalize_ws_length s : length (normalize_ws s) <= length s.
Proof.
  unfold normalize_ws, collapse_ws.
  pose proof (trim_length (squash_from is_space space false s)).
  pose proof (squash_length is_space space false s). lia.
Qed.

(** X1.  The cleaner never makes a text longer, so the payload the
    normaliser hands to the backend is never longer than the content it
    received, whatever the mime type. *)
Theorem cleaner_never_lengthens (html mimeType : str) :
  length (cleanHtmlContent html) <= length html
  /\ length (processed html mimeType) <= length html.
Proof.
  assert (H : length (cleanHtmlContent html) <= length html).
  { rewrite cleanHtmlContent_normal_form.
    pose proof (normalize_ws_length (strip_structures html)).
    pose proof (strip_structures_length html). lia. }
  split; [exact H|]. unfold processed.
  destruct (str_eqb mimeType text_html); [exact H | lia].
Qed.

Lemma normalize_ws_shape s :
  starts_clean (normalize_ws s) /\ ends_clean (normalize_ws s)
  /\ no_adjacent is_space (normalize_ws s).
Proof.
  unfold normalize_ws, trim. split; [apply trim_clean|].
  split; [apply trimEnd_ends_clean|].
  apply trimEnd_no_adjacent, trimStart_no_adjacent.
  apply squash_no_adjacent.
Qed.

(** Whitespace that already stands alone as single spaces is kept. *)
Lemma collapse_ws_fixed s :
  (forall c, In c s -> is_space c = true -> c = space) ->
  no_adjacent is_space s -> collapse_ws s = s.
Proof.
  unfold collapse_ws. induction s as [|c s IH]; intros Hsp Hadj;
    [reflexivity|].
  assert (IH' : squash_from is_space space false s = s).
  { apply IH; [intros d Hd; apply Hsp; now right|].
    now apply no_adjacent_tail in Hadj. }
  cbn [squash_from]. destruct (is_space c) eqn:E.
  - rewrite (Hsp c) by (trivial; now left).
    rewrite squash_from_outside, IH'; [reflexivity|].
    destruct s as [|d s]; [exact I|]. cbn [no_adjacent] in Hadj.
    simpl. destruct (is_space d) eqn:Ed; [|reflexivity].
    exfalso. now apply (proj1 Hadj).
  - now rewrite IH'.
Qed.

(** X2.  Whatever the input, the output of the cleaner is in whitespace
    normal form: it neither starts nor ends with whitespace, no two
    whitespace characters are neighbours, and normalising it again changes
    nothing. *)
Theorem cleaner_output_whitespace_normal (html : str) :
  let out := cleanHtmlContent html in
  starts_clean out /\ ends_clean out /\ no_adjacent is_space out
  /\ normalize_ws out = out.
Proof.
  intros out. unfold out. rewrite cleanHtmlContent_normal_form.
  destruct (normalize_ws_shape (strip_structures html)) as (H1 & H2 & H3).
  repeat split; try assumption.
  unfold normalize_ws at 1. rewrite collapse_ws_fixed; [|intros c Hc|exact H3].
  - now apply trim_fixed.
  - unfold normalize_ws in Hc. apply In_trim in Hc. revert Hc.
    apply collapse_spaces_only.
Qed.

End CleanerShape.

(** ** More on summary extraction *)

Section SummaryShape.

Import Summary.

Lemma filter_all_pass (f : char -> bool) (s : str) :
  (forall c, In c s -> f c = true) -> List.filter f s = s.
Proof.
  induction s as [|c s IH]; intros H; simpl; [reflexivity|].
  rewrite (H c) by now left. rewrite IH; [reflexivity|].
  intros d Hd. apply H. now right.
Qed.

Lemma stripped_idem cleanText : stripped (stripped cleanText) = stripped cleanText.
Proof.
  unfold stripped at 1. unfold markers_re, newlines_re.
  rewrite replace_one_filter. unfold replace_all.
  rewrite (proj1 (replace_plus_squash _ _ _)).
  rewrite filter_all_pass.
  - rewrite squash_outside; [apply stripped_trimmed|].
    intros c Hc. apply stripped_chars in Hc as (_ & Hnl & _).
    unfold is_char. now apply N.eqb_neq.
  - intros c Hc. apply stripped_chars in Hc as (Hm & _). now rewrite Hm.
Qed.

(** X3.  Summarising a text that is already stripped gives the summary of
    the original: stripping markers, newline runs and outer whitespace is
    idempotent. *)
Theorem summary_of_stripped (limit : nat) (cleanText : str) :
  stripped (stripped cleanText) = stripped cleanText
  /\ displaySummaryAt limit (stripped cleanText)
     = displaySummaryAt limit cleanText.
Proof.
  split; [apply stripped_idem|].
  unfold displaySummaryAt. now rewrite stripped_idem.
Qed.

(** X4.  The summary never invents or reorders text: it is a beginning of
    the stripped text, with no whitespace at either end, followed by the
    ellipsis exactly when something of the stripped text was left out. *)
Theorem summary_is_prefix (limit : nat) (cleanText : str) :
  exists kept dropped : str,
    stripped cleanText = kept ++ dropped
    /\ length kept <= limit
    /\ starts_clean kept /\ ends_clean kept
    /\ (dropped = [] -> displaySummaryAt limit cleanText = kept)
    /\ (dropped <> [] -> displaySummaryAt limit cleanText = kept ++ ellipsis).
Proof.
  set (full := stripped cleanText).
  set (cut := substring0 limit full).
  assert (Hcut : trim cut = trimEnd cut).
  { unfold trim. rewrite trimStart_fixed; [reflexivity|].
    apply firstn_starts_clean. apply trim_clean. }
  destruct (trimEnd_prefix cut) as [t Ht].
  exists (trim cut), (t ++ skipn limit full).
  assert (Hfull : full = trim cut ++ t ++ skipn limit full).
  { rewrite Hcut, app_assoc, <- Ht. unfold cut, substring0.
    now rewrite firstn_skipn. }
  assert (Hdef : displaySummaryAt limit cleanText =
                 if length (trim cut) <? length full
                 then trim cut ++ ellipsis else trim cut) by reflexivity.
  split; [exact Hfull|].
  split.
  { pose proof (trim_length cut). unfold cut, substring0 in *.
    rewrite length_take in *. lia. }
  split; [apply trim_clean|].
  split; [rewrite Hcut; apply trimEnd_ends_clean|].
  apply (f_equal (@length char)) in Hfull as Hlen.
  rewrite length_app in Hlen.
  split; intros Hd; rewrite Hdef.
  - rewrite Hd in Hlen. simpl in Hlen.
    now rewrite (proj2 (Nat.ltb_ge _ _)) by lia.
  - assert (0 < length (t ++ skipn limit full))
      by (destruct (t ++ skipn limit full); [congruence | simpl; lia]).
    now rewrite (proj2 (Nat.ltb_lt _ _)) by lia.
Qed.

End SummaryShape.

(** ** More on markdown conversion *)

Section ConvertShape.

Lemma converted_truthy o v : converted o = Some v -> truthy v = true.
Proof.
  destruct o as [e|[[|[conversion|] rest]|]]; simpl; try discriminate.
  destruct (bool_decide _); simpl; [|discriminate].
  destruct (truthy (data conversion)) eqn:E; [|discriminate].
  now intros [= <-].
Qed.

(** X5.  A content that is not the empty string never normalises to
    nothing: whatever the backend does, the result is a non-empty string
    or another truthy value. *)
Theorem nonempty_content_nonempty_result
    (content mimeType : str) (env : option Env) :
  content <> [] ->
  exists v, convertToMarkdown (Some content) env mimeType = Ok v
            /\ truthy v = true
            /\ v <> VString [].
Proof.
  intros Hne.
  assert (Hraw : truthy (VString content) = true).
  { simpl. now rewrite bool_decide_eq_false_2. }
  assert (H : exists v, convertToMarkdown (Some content) env mimeType = Ok v
                        /\ truthy v = true).
  { destruct (decide (has_content content)) as [Hc|Hc];
      [|eexists; split; [exact (convertToMarkdown_blank _ _ _ Hc)|exact Hraw]].
    destruct (env ≫= AI) as [ai|] eqn:Hai;
      [|eexists; split;
         [exact (convertToMarkdown_unavailable _ _ _ Hai)|exact Hraw]].
    eexists. split; [exact (convertToMarkdown_available _ _ _ ai Hc Hai)|].
    destruct (converted _) as [v|] eqn:Hv; [|exact Hraw].
    simpl. now apply converted_truthy in Hv. }
  destruct H as (v & Hv & Ht). exists v. repeat split; try assumption.
  intros ->. discriminate.
Qed.

Lemma nonempty_content_nonempty_result_witness :
  script_page <> []
  /\ exists v, convertToMarkdown (Some script_page) failing_env text_html = Ok v
               /\ truthy v = true /\ v <> VString [].
Proof.
  assert (H : script_page <> []) by discriminate.
  split; [exact H|].
  exact (nonempty_content_nonempty_result script_page text_html failing_env H).
Defined.

End ConvertShape.

(** ** The two normalisers and JSON conversion *)

Section PlainFacts.

Implicit Types (content mimeType : str) (env : option Env).

Lemma plain_convert_available content env mimeType ai :
  has_content content -> env ≫= AI = Some ai ->
  PlainMarkdown.convertToMarkdown (Some content) env mimeType =
  Ok (default (VString content)
        (converted (toMarkdown ai (conversion_request content mimeType)))).
Proof.
  intros Hc Hai. unfold PlainMarkdown.convertToMarkdown.
  rewrite (convertToMarkdown_guard _ Hc), Hai. unfold conversion_request.
  destruct (toMarkdown ai _) as [e|[[|[conversion|] rest]|]]; try reflexivity.
  simpl.
  now destruct (bool_decide (format conversion = VString (lit "markdown"))
                && truthy (data conversion)).
Qed.

Lemma plain_convert_unavailable content env mimeType :
  env ≫= AI = None ->
  PlainMarkdown.convertToMarkdown (Some content) env mimeType
  = Ok (VString content).
Proof.
  intros H. unfold PlainMarkdown.convertToMarkdown. rewrite H.
  now destruct (bool_decide (content = []) || bool_decide (trim content = [])).
Qed.

Lemma plain_convert_blank content env mimeType :
  ~ has_content content ->
  PlainMarkdown.convertToMarkdown (Some content) env mimeType
  = Ok (VString content).
Proof.
  intros H. unfold PlainMarkdown.convertToMarkdown.
  destruct (bool_decide (content = [])) eqn:E1; [reflexivity|].
  destruct (bool_decide (trim content = [])) eqn:E2; [reflexivity|].
  exfalso. apply H. apply bool_decide_eq_false in E1, E2. now split.
Qed.

(** The two normalisers agree as soon as the payload is the same. *)
Lemma same_payload_same_result (text : option str) env mimeType :
  (forall content, text = Some content -> has_content content ->
     is_Some (env ≫= AI) -> processed content mimeType = content) ->
  PlainMarkdown.convertToMarkdown text env mimeType
  = convertToMarkdown text env mimeType.
Proof.
  intros H. destruct text as [content|]; [|reflexivity].
  destruct (decide (has_content content)) as [Hc|Hc].
  - destruct (env ≫= AI) as [ai|] eqn:Hai.
    + rewrite (plain_convert_available _ _ _ ai Hc Hai).
      rewrite (convertToMarkdown_available _ _ _ ai Hc Hai).
      rewrite (H content eq_refl Hc); [reflexivity|]. eauto.
    + rewrite (plain_convert_unavailable _ _ _ Hai).
      now rewrite (convertToMarkdown_unavailable _ _ _ Hai).
  - rewrite (plain_convert_blank _ _ _ Hc).
    now rewrite (convertToMarkdown_blank _ _ _ Hc).
Qed.

(** X6.  The normaliser with the cleaner and the one without it give the
    same result on every text whenever the mime type is not [text/html],
    or no backend is configured, or the cleaner leaves the text as it is:
    the cleaner only changes what the backend is asked to convert. *)
Theorem normalisers_agree (text : option str) (mimeType : str)
    (env : option Env) :
  mimeType <> text_html \/ env ≫= AI = None
  \/ (forall content, text = Some content ->
        Cleaner.cleanHtmlContent content = content) ->
  PlainMarkdown.convertToMarkdown text env mimeType
  = convertToMarkdown text env mimeType.
Proof.
  intros H. apply same_payload_same_result.
  intros content Ht Hc Hai. unfold processed, str_eqb.
  destruct H as [H|[H|H]].
  - now rewrite bool_decide_eq_false_2.
  - rewrite H in Hai. now destruct Hai.
  - destruct (bool_decide _); [now apply H | reflexivity].
Qed.

Lemma normalisers_agree_witness :
  (text_plain <> text_html \/ markdown_env ≫= AI = None
   \/ (forall content, Some script_page = Some content ->
         Cleaner.cleanHtmlContent content = content))
  /\ PlainMarkdown.convertToMarkdown (Some script_page) markdown_env text_plain
     = convertToMarkdown (Some script_page) markdown_env text_plain.
Proof.
  assert (H : text_plain <> text_html \/ markdown_env ≫= AI = None
              \/ (forall content, Some script_page = Some content ->
                    Cleaner.cleanHtmlContent content = content))
    by (left; discriminate).
  split; [exact H|].
  exact (normalisers_agree (Some script_page) text_plain markdown_env H).
Defined.

(** X7.  JSON conversion is the same in both files and never goes through
    the cleaner: with a backend, a JSON text is sent as it is under
    [text/plain]; a string argument never makes the conversion raise, and
    any other argument makes it raise exactly when [JSON.stringify]
    raises. *)
Theorem json_conversion (data : JsonArg) (env : option Env) :
  PlainMarkdown.convertJsonToMarkdown data env = convertJsonToMarkdown data env
  /\ (forall s ai, jsonString data = Ok (Some s) -> has_content s ->
      env ≫= AI = Some ai ->
      convertJsonToMarkdown data env
      = Ok (default (VString s)
              (converted (toMarkdown ai (conversion_request s text_plain)))))
  /\ (forall s, data = JsonString s ->
      exists v, convertJsonToMarkdown data env = Ok v)
  /\ (forall e, convertJsonToMarkdown data env = Throw e
               <-> jsonString data = Throw e).
Proof.
  assert (Hplain : text_plain <> text_html) by discriminate.
  split; [|split; [|split]].
  - unfold PlainMarkdown.convertJsonToMarkdown, convertJsonToMarkdown.
    destruct (jsonString data) as [text|e]; [|reflexivity]. cbn [result_bind].
    apply same_payload_same_result. intros content _ _ _.
    unfold processed, str_eqb. now rewrite bool_decide_eq_false_2.
  - intros s ai Hs Hc Hai. unfold convertJsonToMarkdown. rewrite Hs. cbn [result_bind].
    rewrite (convertToMarkdown_available _ _ _ ai Hc Hai).
    unfold processed, str_eqb. now rewrite bool_decide_eq_false_2.
  - intros s ->. unfold convertJsonToMarkdown. cbn [jsonString result_bind].
    apply convertToMarkdown_total.
  - intros e. unfold convertJsonToMarkdown.
    destruct (jsonString data) as [text|e']; cbn [result_bind].
    + destruct (convertToMarkdown_total text env text_plain) as [v ->].
      split; discriminate.
    + split; congruence.
Qed.

End PlainFacts.

(** ** When the aggregator raises *)

Section AggregatorRaises.

Variable toLocaleDateString : str -> str.
Variable error_text : exn -> str.

Local Abbreviation process_result := (process_result toLocaleDateString).
Local Abbreviation rendered := (rendered toLocaleDateString).
Local Abbreviation formatSearchResultsToMarkdown :=
  (formatSearchResultsToMarkdown toLocaleDateString).
Local Abbreviation web_search_exa :=
  (WebSearch.web_search_exa toLocaleDateString error_text).

Implicit Types (env : option Env) (result : ExaSearchResult)
  (results : list ExaSearchResult) (markdown query : str).

(** An item without text makes the iteration raise from its handler, after
    the title line has been appended. *)
Lemma process_result_missing_text env result markdown :
  text result = None ->
  process_result env result markdown
  = (Throw TypeError, markdown ++ title_line result).
Proof.
  intros H. unfold process_result, Agg.try_catch, Agg.bind, Agg.lift.
  rewrite H. reflexivity.
Qed.

Lemma texts_dichotomy results :
  Forall (fun result => is_Some (text result)) results
  \/ Exists (fun result => text result = None) results.
Proof.
  induction results as [|r rs [IH|IH]].
  - left. constructor.
  - destruct (text r) as [raw|] eqn:E.
    + left. constructor; [rewrite E; eauto | exact IH].
    + right. now constructor.
  - right. now constructor 2.
Qed.

Lemma texts_exclusive results :
  Forall (fun result => is_Some (text result)) results ->
  Exists (fun result => text result = None) results -> False.
Proof.
  intros HF HE. induction HE as [r rs H|r rs _ IH].
  - inversion HF as [|? ? [raw Hr] _]. congruence.
  - inversion HF. now apply IH.
Qed.

Lemma for_of_missing_text env results markdown :
  Exists (fun result => text result = None) results ->
  exists markdown',
    Agg.for_of results (process_result env) markdown
    = (Throw TypeError, markdown').
Proof.
  intros H. revert markdown.
  induction H as [r rs H|r rs _ IH]; intros markdown;
    cbn [Agg.for_of]; unfold Agg.bind.
  - rewrite (process_result_missing_text _ _ _ H). eauto.
  - destruct (text r) as [raw|] eqn:E.
    + rewrite process_result_rendered by (rewrite E; eauto). apply IH.
    + rewrite (process_result_missing_text _ _ _ E). eauto.
Qed.

Lemma formatSearchResults_raises env results query :
  Exists (fun result => text result = None) (firstn 10 results) ->
  formatSearchResultsToMarkdown (Some results) query env = Throw TypeError.
Proof.
  intros H. destruct results as [|r rs]; [inversion H|].
  unfold formatSearchResultsToMarkdown, Agg.bind.
  destruct (for_of_missing_text env _ (results_header query) H) as [md ->].
  reflexivity.
Qed.

Lemma formatSearchResults_first_ten env results query :
  results <> [] ->
  Forall (fun result => is_Some (text result)) (firstn 10 results) ->
  formatSearchResultsToMarkdown (Some results) query env
  = Ok (results_header query
          ++ concat (map (rendered env) (firstn 10 results))
          ++ overflow_note (length results)).
Proof.
  intros Hne Hall. destruct results as [|r rs]; [congruence|].
  unfold formatSearchResultsToMarkdown, Agg.bind.
  rewrite for_of_rendered by exact Hall.
  unfold overflow_note, Agg.when.
  destruct (10 <? length (r :: rs)); cbn [Agg.append Agg.ret Agg.current fst];
    rewrite <- ?app_assoc, ?app_nil_r; reflexivity.
Qed.

Lemma formatSearchResults_returns env results query :
  Forall (fun result => is_Some (text result)) (firstn 10 results) ->
  exists doc, formatSearchResultsToMarkdown (Some results) query env = Ok doc.
Proof.
  intros H. destruct results as [|r rs] eqn:E; [eexists; reflexivity|].
  eexists. apply formatSearchResults_first_ten; [discriminate | exact H].
Qed.

(** X8.  The aggregator raises exactly when one of the first ten items has
    no text, and then with a [TypeError]; it returns a document exactly
    when each of the first ten items has a text.  Items after the tenth are
    never read. *)
Theorem aggregator_raises_iff_text_missing env query results :
  (formatSearchResultsToMarkdown (Some results) query env = Throw TypeError
   <-> Exists (fun result => text result = None) (firstn 10 results))
  /\ ((exists doc,
         formatSearchResultsToMarkdown (Some results) query env = Ok doc)
      <-> Forall (fun result => is_Some (text result)) (firstn 10 results))
  /\ (forall e,
        formatSearchResultsToMarkdown (Some results) query env = Throw e ->
        e = TypeError).
Proof.
  destruct (texts_dichotomy (firstn 10 results)) as [HF|HE].
  - destruct (formatSearchResults_returns env results query HF) as [doc Hdoc].
    rewrite Hdoc. split; [|split].
    + split; [discriminate|]. intros HE. destruct (texts_exclusive _ HF HE).
    + split; [intros _; exact HF | intros _; eauto].
    + discriminate.
  - rewrite (formatSearchResults_raises env results query HE).
    split; [|split].
    + tauto.
    + split; [intros [doc Hdoc]; discriminate|].
      intros HF. destruct (texts_exclusive _ HF HE).
    + now intros e [= <-].
Qed.

(** X9.  For a search that returns items, the handler reports an error
    exactly when one of the first ten items has no text: then the whole
    answer is the generic error message and no item is shown; otherwise the
    answer is the document, without the error flag, whatever the backend
    does. *)
Theorem search_error_iff_text_missing query env results :
  results <> [] ->
  let answer :=
    web_search_exa query env
      (WebSearch.PostResolves
         (Some {| WebSearch.results := Some results |})) in
  (Forall (fun result => is_Some (text result)) (firstn 10 results) ->
   answer
   = {| WebSearch.content_text :=
          results_header query
            ++ concat (map (rendered env) (firstn 10 results))
            ++ overflow_note (length results);
        WebSearch.isError := false |})
  /\ (Exists (fun result => text result = None) (firstn 10 results) ->
      answer
      = {| WebSearch.content_text :=
             lit "Search error: " ++ error_text TypeError;
           WebSearch.isError := true |}).
Proof.
  intros Hne answer. unfold answer, web_search_exa.
  destruct results as [|r rs]; [congruence|].
  cbn [mbind option_bind WebSearch.results].
  split; intros H.
  - now rewrite (formatSearchResults_first_ten env (r :: rs) query Hne H).
  - now rewrite (formatSearchResults_raises env (r :: rs) query H).
Qed.

Lemma starts_with_first_char (a : char) (l rest s : str) :
  s = (a :: l) ++ rest -> hd 0%N s = a.
Proof. now intros ->. Qed.

(** X10.  The error flag of the search handler and the text of its answer
    agree: the flag is set exactly when the text starts with the words
    [Search error]. *)
Theorem search_error_flag_matches_text query env post :
  WebSearch.isError (web_search_exa query env post) = true
  <-> exists rest,
        WebSearch.content_text (web_search_exa query env post)
        = lit "Search error" ++ rest.
Proof.
  assert (Hno : forall s : str,
            hd 0%N s <> 83%N -> ~ exists rest, s = lit "Search error" ++ rest).
  { intros s Hs [rest Hrest]. apply Hs.
    exact (starts_with_first_char _ _ _ _ Hrest). }
  unfold web_search_exa.
  destruct post as [e|e|[[[[|r rs]|]]|]];
    cbn [mbind option_bind WebSearch.results WebSearch.content_text
         WebSearch.isError WebSearch.generic_error_result
         WebSearch.axios_error_result].
  - split; [intros _|reflexivity]. eexists. reflexivity.
  - split; [intros _|reflexivity]. eexists. reflexivity.
  - split; [discriminate|]. intros H. exfalso. revert H. apply Hno.
    vm_compute. discriminate.
  - destruct (formatSearchResultsToMarkdown (Some (r :: rs)) query env)
      as [doc|e] eqn:E;
      cbn [WebSearch.content_text WebSearch.isError
           WebSearch.generic_error_result].
    + split; [discriminate|]. intros H. exfalso. revert H. apply Hno.
      destruct (formatSearchResults_header toLocaleDateString _ _ _ _ _ E)
        as [rest ->].
      vm_compute. discriminate.
    + split; [intros _|reflexivity]. eexists. reflexivity.
  - split; [discriminate|]. intros H. exfalso. revert H. apply Hno.
    vm_compute. discriminate.
  - split; [discriminate|]. intros H. exfalso. revert H. apply Hno.
    vm_compute. discriminate.
Qed.

End AggregatorRaises.

Lemma search_error_iff_text_missing_witness :
  [null_text_item; plain_item] <> []
  /\ WebSearch.web_search_exa (fun d => d) (fun _ => lit "failed") (lit "q")
       None
       (WebSearch.PostResolves
          (Some {| WebSearch.results := Some [null_text_item; plain_item] |}))
     = {| WebSearch.content_text := lit "Search error: " ++ lit "failed";
          WebSearch.isError := true |}.
Proof.
  assert (H : [null_text_item; plain_item] <> []) by discriminate.
  split; [exact H|].
  apply (proj2 (search_error_iff_text_missing (fun d => d)
                  (fun _ => lit "failed") (lit "q") None _ H)).
  constructor. reflexivity.
Defined.

(** ** The [crawling_exa] handler *)

Section CrawlingFacts.

Import Crawling.

Variable stringify : CrawlResponse -> str.
Variable error_text : exn -> str.

Local Abbreviation crawling_exa := (crawling_exa stringify error_text).

Implicit Types (url : str) (env : option Env) (response : CrawlResponse).

(** The conversion of a crawled text never leaves its [try] block with an
    exception: the handler of the block answers the text itself. *)
Lemma convert_crawled_caught url env (t : str) :
  result_catch (convert_crawled url env t)
    (fun _ => Ok (plain_result (VString t)))
  = Ok (plain_result
          (match env ≫= AI with
           | None => VString t
           | Some ai =>
               default (VString t)
                 (converted
                    (toMarkdown ai
                       [{| doc_name := url; blob := t;
                           blob_type := text_html |}]))
           end)).
Proof.
  unfold convert_crawled. destruct (env ≫= AI) as [ai|]; [|reflexivity].
  destruct (toMarkdown ai _) as [e|[[|[conversion|] rest]|]]; try reflexivity.
  simpl.
  now destruct (bool_decide (format conversion = VString (lit "markdown"))
                && truthy (data conversion)).
Qed.

(** X11.  When the crawl returns a first result with a text that is not
    blank, the handler answers without the error flag: the data of the
    backend's record when the conversion succeeds, and in every other case
    (no backend, a failing or malformed answer) the crawled text itself.
    The text goes to the backend as it was crawled, under the name of the
    URL, and only the first result is looked at. *)
Theorem crawl_answers_first_text url env response first rest :
  results response = Some (first :: rest) ->
  trim (crawledText first) <> [] ->
  crawling_exa url env (PostResolves (Some response))
  = {| content_text :=
         match env ≫= AI with
         | None => VString (crawledText first)
         | Some ai =>
             default (VString (crawledText first))
               (converted
                  (toMarkdown ai
                     [{| doc_name := url; blob := crawledText first;
                         blob_type := text_html |}]))
         end;
       isError := false |}.
Proof.
  intros Hres Htext. unfold crawling_exa. rewrite Hres.
  rewrite bool_decide_eq_false_2 by exact Htext.
  now rewrite convert_crawled_caught.
Qed.

(** X12.  Without a usable text the handler does not consult the backend:
    a response without results gives the fixed message, and a first result
    that is [null] or whose text is missing, empty or blank gives the JSON
    dump of the whole response; neither sets the error flag. *)
Theorem crawl_without_text url env response :
  let answer := crawling_exa url env (PostResolves (Some response)) in
  crawling_exa url env (PostResolves None)
  = plain_result (VString no_content_text)
  /\ (results response = None \/ results response = Some [] ->
      answer = plain_result (VString no_content_text))
  /\ (forall first rest,
        results response = Some (first :: rest) ->
        first ≫= text = None \/ first ≫= text = Some []
        \/ (exists raw, first ≫= text = Some raw /\ trim raw = []) ->
        answer = plain_result (VString (stringify response))).
Proof.
  intros answer. unfold answer, crawling_exa.
  split; [reflexivity|]. split.
  - now intros [-> | ->].
  - intros first rest -> H.
    assert (Hblank : trim (crawledText first) = []).
    { unfold crawledText. destruct first as [r|]; [|reflexivity].
      cbn [mbind option_bind] in *.
      destruct H as [-> | [-> | (raw & -> & Hraw)]];
        [reflexivity | reflexivity | exact Hraw]. }
    now rewrite bool_decide_eq_true_2 by exact Hblank.
Qed.

(** X13.  The crawl handler sets the error flag exactly when the upstream
    call itself fails: once the crawl has answered, no content and no
    behaviour of the backend turns the answer into an error. *)
Theorem crawl_error_iff_upstream_fails url env post :
  isError (crawling_exa url env post) = true
  <-> (exists e, post = PostFails e) \/ (exists e, post = PostThrows e).
Proof.
  unfold crawling_exa. destruct post as [e|e|[response|]].
  - split; [eauto | reflexivity].
  - split; [eauto | reflexivity].
  - split; [|intros [[e He]|[e He]]; discriminate].
    destruct (results response) as [[|first rest]|]; try discriminate.
    destruct (bool_decide _); [discriminate|].
    rewrite convert_crawled_caught. discriminate.
  - split; [discriminate | intros [[e He]|[e He]]; discriminate].
Qed.

End CrawlingFacts.

Lemma crawl_answers_first_text_witness :
  Crawling.results {| Crawling.results := Some [Some plain_item] |}
  = Some [Some plain_item]
  /\ trim (Crawling.crawledText (Some plain_item)) <> []
  /\ Crawling.crawling_exa (fun _ => lit "{}") (fun _ => lit "failed")
       (lit "https://example.com/p") failing_env
       (Crawling.PostResolves
          (Some {| Crawling.results := Some [Some plain_item] |}))
     = {| Crawling.content_text :=
            VString (lit "Plain <b>text</b>, with an unclosed <div tag.");
          Crawling.isError := false |}.
Proof.
  assert (H : trim (Crawling.crawledText (Some plain_item)) <> [])
    by (vm_compute; discriminate).
  split; [reflexivity|]. split; [exact H|].
  exact (crawl_answers_first_text (fun _ => lit "{}") (fun _ => lit "failed")
           (lit "https://example.com/p") failing_env
           {| Crawling.results := Some [Some plain_item] |}
           (Some plain_item) [] eq_refl H).
Defined.

(** ** Registration of the tools *)

Section RegistrationFacts.

Import Worker.

Implicit Types (toolsParam : option ToolsParam) (toolId : str).

Lemma registered_iff toolsParam toolId :
  toolId ∈ registeredTools toolsParam
  <-> toolId ∈ registration_order
      /\ shouldRegisterTool availableTools (parsedEnabledTools toolsParam)
           toolId = true.
Proof. unfold registeredTools. rewrite list_elem_of_filter. tauto. Qed.

Lemma entries_registry : availableTools = list_to_map ToolsList.entries.
Proof. reflexivity. Qed.

Lemma entries_have_branches :
  Forall (fun entry => fst entry ∈ registration_order) ToolsList.entries.
Proof.
  repeat constructor; apply (bool_decide_unpack _); vm_compute; exact I.
Qed.

(** X14.  Whatever the configuration, [tools_list] shows the eight tools
    of the registry, each once and in the order of the registry, and flags a
    tool as enabled exactly when the activation test registers it; the
    registered tools themselves are a duplicate-free selection of the
    registration order, whatever the order and the repetitions of the
    configured selection. *)
Theorem tools_list_reports_activation toolsParam :
  map ToolsList.listing_id (ToolsList.toolsList toolsParam)
  = map fst ToolsList.entries
  /\ NoDup (map fst ToolsList.entries)
  /\ Forall
       (fun listing =>
          ToolsList.listing_enabled listing
          = shouldRegisterTool availableTools (parsedEnabledTools toolsParam)
              (ToolsList.listing_id listing))
       (ToolsList.toolsList toolsParam)
  /\ registeredTools toolsParam `sublist_of` registration_order
  /\ NoDup (registeredTools toolsParam).
Proof.
  assert (Hnodup : NoDup registration_order).
  { apply (bool_decide_unpack _). vm_compute. exact I. }
  split; [|split; [|split; [|split]]].
  - unfold ToolsList.toolsList. rewrite map_map. reflexivity.
  - apply (bool_decide_unpack _). vm_compute. exact I.
  - unfold ToolsList.toolsList. apply List.Forall_map.
    eapply Forall_impl; [exact entries_have_branches|].
    intros entry Hentry. cbn [ToolsList.listing_enabled ToolsList.listing_id].
    destruct (shouldRegisterTool availableTools _ (fst entry)) eqn:E.
    + apply bool_decide_eq_true. now apply registered_iff.
    + apply bool_decide_eq_false. rewrite registered_iff. intros [_ H].
      congruence.
  - apply sublist_filter.
  - now apply NoDup_filter.
Qed.

(** X15.  A selection that names only unknown ids registers nothing: there
    is no return to the defaults, and every tool is listed as disabled. *)
Theorem unknown_selection_registers_nothing toolsParam (selection : list str) :
  parsedEnabledTools toolsParam = Some selection ->
  selection <> [] ->
  (forall toolId, toolId ∈ selection -> toolId ∉ registration_order) ->
  registeredTools toolsParam = []
  /\ Forall (fun listing => ToolsList.listing_enabled listing = false)
       (ToolsList.toolsList toolsParam).
Proof.
  intros Hsel Hne Hunknown.
  assert (Hnone : registeredTools toolsParam = []).
  { apply elem_of_nil_inv. intros toolId Hin.
    apply registered_iff in Hin as [Hknown Hactive].
    rewrite Hsel in Hactive. unfold shouldRegisterTool in Hactive.
    destruct selection as [|x l]; [congruence|].
    apply bool_decide_eq_true in Hactive. now apply (Hunknown toolId). }
  split; [exact Hnone|].
  unfold ToolsList.toolsList. apply List.Forall_map.
  apply List.Forall_forall. intros entry _.
  cbn [ToolsList.listing_enabled]. rewrite Hnone.
  apply bool_decide_eq_false. apply not_elem_of_nil.
Qed.

Lemma split_on_no_sep (sep : char) (s piece : str) :
  piece ∈ split_on sep s -> ~ In sep piece.
Proof.
  revert piece. induction s as [|c s IH]; intros piece; simpl.
  - intros H. apply list_elem_of_singleton in H. now subst.
  - destruct (c =? sep)%N eqn:E.
    + intros H. apply elem_of_cons in H as [->|H]; [tauto | now apply IH].
    + destruct (split_on sep s) as [|p ps] eqn:Es.
      * intros H. apply list_elem_of_singleton in H. subst piece.
        apply N.eqb_neq in E. simpl. intuition congruence.
      * intros H. apply elem_of_cons in H as [->|H].
        -- apply N.eqb_neq in E. simpl. intros [Hc|Hc]; [congruence|].
           apply (IH p); [left | exact Hc].
        -- apply IH. now right.
Qed.

(** X16.  Every id parsed from a comma-separated selection is non-empty,
    has no whitespace at either end and contains no comma. *)
Theorem parsed_ids_are_trimmed (s : str) (selection : list str) :
  parsedEnabledTools (Some (ToolsString s)) = Some selection ->
  Forall (fun toolId =>
            toolId <> [] /\ trim toolId = toolId /\ ~ In comma toolId
            /\ starts_clean toolId /\ ends_clean toolId)
    selection.
Proof.
  intros H. apply List.Forall_forall. intros toolId Hin.
  assert (Hreq : requested s toolId).
  { apply parsed_string_requested. rewrite H. simpl.
    now apply list_elem_of_In. }
  destruct Hreq as [Hne (piece & Hpiece & <-)].
  split; [exact Hne|]. split; [apply trim_idem|].
  split; [|split; [apply trim_clean | apply trimEnd_ends_clean]].
  intros Hc. apply In_trim in Hc. exact (split_on_no_sep _ _ _ Hpiece Hc).
Qed.

(** X17.  Activation depends on the selection only through its members:
    two selections with the same members activate the same tools, so the
    order and the repetitions of the configured ids do not matter. *)
Theorem activation_depends_on_members
    (catalog : gmap str ToolInfo) (a b : list str) toolId :
  (forall x, x ∈ a <-> x ∈ b) ->
  shouldRegisterTool catalog (Some a) toolId
  = shouldRegisterTool catalog (Some b) toolId.
Proof.
  intros H. unfold shouldRegisterTool.
  destruct a as [|x a], b as [|y b]; [reflexivity | | |].
  - exfalso. apply (not_elem_of_nil y), H. now left.
  - exfalso. apply (not_elem_of_nil x), H. now left.
  - apply bool_decide_ext, H.
Qed.

End RegistrationFacts.

Lemma unknown_selection_registers_nothing_witness :
  Worker.parsedEnabledTools (Some (Worker.ToolsString (lit "web_search, crawl")))
  = Some [lit "web_search"; lit "crawl"]
  /\ Worker.registeredTools
       (Some (Worker.ToolsString (lit "web_search, crawl"))) = [].
Proof.
  assert (H : Worker.parsedEnabledTools
                (Some (Worker.ToolsString (lit "web_search, crawl")))
              = Some [lit "web_search"; lit "crawl"])
    by (vm_compute; reflexivity).
  split; [exact H|].
  refine (proj1 (unknown_selection_registers_nothing _ _ H _ _));
    [discriminate|].
  intros toolId Hin Hknown.
  apply list_elem_of_In in Hin. apply list_elem_of_In in Hknown.
  vm_compute in Hin, Hknown.
  repeat (destruct Hin as [Hin|Hin]; [subst toolId; intuition discriminate|]).
  exact Hin.
Defined.

Lemma parsed_ids_are_trimmed_witness :
  Worker.parsedEnabledTools
    (Some (Worker.ToolsString (lit " crawling_exa , ,web_search_exa,")))
  = Some [lit "crawling_exa"; lit "web_search_exa"]
  /\ Forall (fun toolId =>
               toolId <> [] /\ trim toolId = toolId
               /\ ~ In Worker.comma toolId
               /\ starts_clean toolId /\ ends_clean toolId)
       [lit "crawling_exa"; lit "web_search_exa"].
Proof.
  assert (H : Worker.parsedEnabledTools
                (Some (Worker.ToolsString
                         (lit " crawling_exa , ,web_search_exa,")))
              = Some [lit "crawling_exa"; lit "web_search_exa"])
    by (vm_compute; reflexivity).
  split; [exact H|]. exact (parsed_ids_are_trimmed _ _ H).
Defined.

Lemma activation_depends_on_members_witness :
  (forall x, x ∈ [lit "a"; lit "b"; lit "a"] <-> x ∈ [lit "b"; lit "a"])
  /\ Worker.shouldRegisterTool Worker.availableTools
       (Some [lit "a"; lit "b"; lit "a"]) (lit "b")
     = Worker.shouldRegisterTool Worker.availableTools
         (Some [lit "b"; lit "a"]) (lit "b").
Proof.
  assert (H : forall x, x ∈ [lit "a"; lit "b"; lit "a"]
                        <-> x ∈ [lit "b"; lit "a"]).
  { intros x. rewrite !elem_of_cons, !elem_of_nil. tauto. }
  split; [exact H|].
  exact (activation_depends_on_members Worker.availableTools _ _ (lit "b") H).
Defined.

(** ** Search intent *)

Section IntentFacts.

Import Intent.

Implicit Types (r : regex) (s message q : str) (p : char -> bool).

(** The literal part of a pattern: one case-insensitive atom per character. *)
Local Abbreviation lits l := (map (fun c => One (ci c)) l).

Lemma match_here_bound r : forall s n, match_here r s = Some n -> n <= length s.
Proof.
  induction r as [|a r IH]; intros s n.
  - simpl. intros [= <-]. lia.
  - destruct a as [p|p|p].
    + destruct s as [|c s]; simpl; [discriminate|].
      destruct (p c); [|discriminate].
      destruct (match_here r s) as [m|] eqn:E; simpl; [|discriminate].
      intros [= <-]. apply IH in E. lia.
    + revert n. induction s as [|c s IHs]; intros n.
      * change (match_here (Star p :: r) []) with (match_here r []). apply IH.
      * change (match_here (Star p :: r) (c :: s)) with
          (if p c
           then match match_here (Star p :: r) s with
                | Some n => Some (S n)
                | None => match_here r (c :: s)
                end
           else match_here r (c :: s)).
        destruct (p c); [|apply IH].
        destruct (match_here (Star p :: r) s) as [m|] eqn:E; [|apply IH].
        intros [= <-]. specialize (IHs m eq_refl). simpl. lia.
    + revert n. induction s as [|c s IHs]; intros n.
      * change (match_here (Lazy p :: r) []) with
          (match match_here r [] with Some n => Some n | None => None end).
        destruct (match_here r []) as [m|] eqn:E; [|discriminate].
        intros [= <-]. now apply IH.
      * change (match_here (Lazy p :: r) (c :: s)) with
          (match match_here r (c :: s) with
           | Some n => Some n
           | None => if p c then S <$> match_here (Lazy p :: r) s else None
           end).
        destruct (match_here r (c :: s)) as [m|] eqn:E.
        -- intros [= <-]. now apply IH.
        -- destruct (p c); [|discriminate].
           destruct (match_here (Lazy p :: r) s) as [m|] eqn:E'; simpl;
             [|discriminate].
           intros [= <-]. specialize (IHs m eq_refl). simpl. lia.
Qed.

(** A match of a pattern that starts with a literal: the input starts with
    the literal, up to case, and the rest of the pattern matches what
    follows. *)
Lemma match_literal_then (l : str) r s n :
  match_here (lits l ++ r) s = Some n ->
  exists m, n = length l + m
    /\ match_here r (skipn (length l) s) = Some m
    /\ Forall2 (fun c x => ci c x = true) l (firstn (length l) s).
Proof.
  revert s n. induction l as [|c l IH]; intros s n H.
  - exists n. simpl. repeat split; [exact H | constructor].
  - destruct s as [|x s]; [discriminate|]. simpl in H.
    destruct (ci c x) eqn:Ec; [|discriminate].
    destruct (match_here (lits l ++ r) s) as [k|] eqn:E; [|discriminate].
    injection H as <-. destruct (IH s k E) as (m & -> & Hm & Hl).
    exists m. simpl. repeat split; [exact Hm|]. now constructor.
Qed.

Lemma literal_then_match (l trig : str) r s :
  Forall2 (fun c x => ci c x = true) l trig ->
  match_here (lits l ++ r) (trig ++ s)
  = (fun m => length l + m) <$> match_here r s.
Proof.
  intros H. induction H as [|c x l trig Hc _ IH]; simpl.
  - now destruct (match_here r s).
  - rewrite Hc, IH. now destruct (match_here r s).
Qed.

Lemma match_literal_width (l : str) s n :
  match_here (lits l) s = Some n -> n = length l.
Proof.
  intros H. rewrite <- (app_nil_r (lits l)) in H.
  apply match_literal_then in H as (m & -> & Hm & _).
  simpl in Hm. injection Hm as <-. lia.
Qed.

(** A greedy star followed by a literal: what the star takes is of its
    class. *)
Lemma match_star_then_literal p (l : str) s n :
  match_here (Star p :: lits l) s = Some n ->
  length l <= n /\ Forall (fun c => p c = true) (firstn (n - length l) s).
Proof.
  revert n. induction s as [|c s IH]; intros n.
  - change (match_here (Star p :: lits l) []) with (match_here (lits l) []).
    intros H. apply match_literal_width in H as ->.
    split; [lia|]. rewrite Nat.sub_diag. constructor.
  - change (match_here (Star p :: lits l) (c :: s)) with
      (if p c
       then match match_here (Star p :: lits l) s with
            | Some n => Some (S n)
            | None => match_here (lits l) (c :: s)
            end
       else match_here (lits l) (c :: s)).
    assert (Hlit : match_here (lits l) (c :: s) = Some n ->
                   length l <= n
                   /\ Forall (fun c => p c = true)
                        (firstn (n - length l) (c :: s))).
    { intros H. apply match_literal_width in H as ->.
      split; [lia|]. rewrite Nat.sub_diag. constructor. }
    destruct (p c) eqn:Ec; [|exact Hlit].
    destruct (match_here (Star p :: lits l) s) as [m|] eqn:E; [|exact Hlit].
    intros [= <-]. destruct (IH m eq_refl) as [Hle Hall].
    split; [lia|]. replace (S m - length l) with (S (m - length l)) by lia.
    simpl. now constructor.
Qed.

Lemma match_plus_then_literal p (l : str) s n :
  match_here ([One p; Star p] ++ lits l) s = Some n ->
  S (length l) <= n /\ Forall (fun c => p c = true) (firstn (n - length l) s).
Proof.
  destruct s as [|c s]; [discriminate|].
  change (match_here ([One p; Star p] ++ lits l) (c :: s)) with
    (if p c then S <$> match_here (Star p :: lits l) s else None).
  destruct (p c) eqn:Ec; [|discriminate].
  destruct (match_here (Star p :: lits l) s) as [m|] eqn:E; [|discriminate].
  intros [= <-]. apply match_star_then_literal in E as [Hle Hall].
  split; [lia|]. replace (S m - length l) with (S (m - length l)) by lia.
  simpl. now constructor.
Qed.

Lemma search_found r s i n :
  search r s = Some (i, n) ->
  i <= length s /\ match_here r (skipn i s) = Some n.
Proof.
  revert i. induction s as [|c s IH]; intros i; simpl.
  - destruct (match_here r []) as [m|] eqn:E; [|discriminate].
    intros [= <- <-]. split; [lia | exact E].
  - destruct (match_here r (c :: s)) as [m|] eqn:E.
    + intros [= <- <-]. split; [lia | exact E].
    + destruct (search r s) as [[j m]|]; [|discriminate].
      intros [= <- <-]. destruct (IH j eq_refl) as [Hj Hm].
      split; [lia | exact Hm].
Qed.

Lemma search_at_start r s n :
  match_here r s = Some n -> search r s = Some (0, n).
Proof. intros H. destruct s; cbn [search]; now rewrite H. Qed.

Lemma lit_length (x : string) : length (lit x) = String.length x.
Proof.
  unfold lit. rewrite length_map.
  induction x as [|a x IH]; simpl; [reflexivity | now rewrite IH].
Qed.

(** What a pattern captures: a non-empty run without line terminator that
    follows, in the message, an occurrence of the opening literal in any
    case. *)
Lemma group1_sound (pattern : Pattern) message q :
  group1 pattern message = Some q ->
  exists pre trig post,
    message = pre ++ trig ++ q ++ post
    /\ Forall2 (fun c x => ci c x = true) (lit (before pattern)) trig
    /\ q <> []
    /\ Forall (fun c => is_dot c = true) q.
Proof.
  unfold group1, pattern_re.
  destruct (search _ message) as [[i n]|] eqn:Hs; [|discriminate].
  intros [= <-]. apply search_found in Hs as [Hi Hm].
  unfold ci_lit in Hm.
  apply match_literal_then in Hm as (m & -> & Hm & Htrig).
  pose proof (match_here_bound _ _ _ Hm) as Hbound.
  apply match_plus_then_literal in Hm as [Hle Hall].
  rewrite skipn_skipn in Hall, Hbound. repeat rewrite lit_length in *.
  set (b := String.length (before pattern)) in *.
  set (a := String.length (after pattern)) in *.
  rewrite (Nat.add_comm i b).
  replace (b + m - b - a) with (m - a) by lia.
  exists (firstn i message), (firstn b (skipn i message)),
    (skipn (m - a) (skipn (b + i) message)).
  split; [|split; [exact Htrig|split; [|exact Hall]]].
  - rewrite firstn_skipn. rewrite <- skipn_skipn.
    now rewrite firstn_skipn, firstn_skipn.
  - intros Hq. apply (f_equal (@length char)) in Hq.
    rewrite length_take in Hq. simpl in Hq. lia.
Qed.

Lemma first_match_found (patterns : list Pattern) message q :
  first_match patterns message = Some q ->
  exists pattern, In pattern patterns /\ group1 pattern message = Some q.
Proof.
  induction patterns as [|pattern patterns IH]; simpl; [discriminate|].
  destruct (group1 pattern message) as [q'|] eqn:E.
  - intros [= <-]. eauto.
  - intros H. destruct (IH H) as (p' & Hin & Hp'). eauto.
Qed.

Lemma intent_sound message q :
  extractSearchIntent message = Some q ->
  exists pattern pre trig post,
    In pattern searchPatterns
    /\ message = pre ++ trig ++ q ++ post
    /\ Forall2 (fun c x => ci c x = true) (lit (before pattern)) trig
    /\ q <> []
    /\ Forall (fun c => is_dot c = true) q.
Proof.
  intros H. apply first_match_found in H as (pattern & Hin & Hg).
  apply group1_sound in Hg as (pre & trig & post & Hm & Ht & Hne & Hdot).
  exists pattern, pre, trig, post. auto.
Qed.

(** X18.  A search intent, when one is found, is never empty and never
    spans a line break, and it is text of the message itself: it stands
    right after an occurrence, in any letter case, of the opening words of
    one of the four patterns. *)
Theorem intent_is_text_after_trigger message q :
  extractSearchIntent message = Some q ->
  q <> []
  /\ Forall (fun c => is_dot c = true) q
  /\ exists pattern pre trig post,
       In pattern searchPatterns
       /\ message = pre ++ trig ++ q ++ post
       /\ Forall2 (fun c x => ci c x = true) (lit (before pattern)) trig.
Proof.
  intros H.
  apply intent_sound in H as (pattern & pre & trig & post & H1 & H2 & H3 & H4 & H5).
  split; [exact H4|]. split; [exact H5|].
  exists pattern, pre, trig, post. auto.
Qed.

Lemma ci_space x : ci space x = true -> x = space.
Proof.
  unfold ci, upcase, space. intros H. apply andb_true_iff in H as [_ H].
  apply N.eqb_eq in H. simpl in H.
  destruct ((97 <=? x) && (x <=? 122))%N eqn:E; [|exact H].
  apply andb_true_iff in E as [E1 E2]. apply N.leb_le in E1, E2. lia.
Qed.

Lemma literal_space_found (l trig : str) :
  Forall2 (fun c x => ci c x = true) l trig -> In space l -> In space trig.
Proof.
  intros H. induction H as [|c x l trig Hc _ IH]; simpl; [tauto|].
  intros [->|Hin]; [left; now apply ci_space | right; now apply IH].
Qed.

Lemma patterns_have_space :
  Forall (fun pattern => In space (lit (before pattern))) searchPatterns.
Proof. repeat constructor; vm_compute; tauto. Qed.

(** X19.  Every pattern needs a space after its opening word: a message
    without a space character has no search intent. *)
Theorem intent_needs_space message :
  ~ In space message -> extractSearchIntent message = None.
Proof.
  intros Hno. destruct (extractSearchIntent message) as [q|] eqn:E;
    [|reflexivity].
  exfalso. apply Hno.
  apply intent_sound in E as (pattern & pre & trig & post & Hin & -> & Ht & _).
  pose proof patterns_have_space as Hsp. rewrite List.Forall_forall in Hsp.
  apply in_or_app. right. apply in_or_app. left.
  exact (literal_space_found _ _ Ht (Hsp pattern Hin)).
Qed.

Lemma run_length_all p q :
  Forall (fun c => p c = true) q -> run_length p q = length q.
Proof.
  intros H. induction H as [|c q Hc _ IH]; simpl; [reflexivity|].
  now rewrite Hc, IH.
Qed.

(** X20.  A message that consists of the words [search for] followed by a
    space, in any letter case, and then of a non-empty text without line
    break has exactly that text as its search intent. *)
Theorem intent_of_search_phrase (trig q : str) :
  Forall2 (fun c x => ci c x = true) (lit "search for ") trig ->
  q <> [] ->
  Forall (fun c => is_dot c = true) q ->
  extractSearchIntent (trig ++ q) = Some q.
Proof.
  intros Ht Hne Hdot.
  assert (Hlen : length trig = 11).
  { apply Forall2_length in Ht. rewrite <- Ht. reflexivity. }
  assert (Hm : match_here (pattern_re {| before := "search for "; after := "" |})
                 (trig ++ q) = Some (11 + length q)).
  { unfold pattern_re, ci_lit. cbn [before after].
    rewrite (literal_then_match _ _ _ _ Ht).
    destruct q as [|c q]; [congruence|].
    change (lits (lit "")) with (@nil atom). rewrite app_nil_r.
    rewrite match_plus_run. apply Forall_cons in Hdot as [Hc Hq].
    rewrite Hc, (run_length_all _ _ Hq). reflexivity. }
  unfold extractSearchIntent, searchPatterns. cbn [first_match].
  unfold group1.
  assert (Hs : search (pattern_re {| before := "search for "; after := "" |})
                 (trig ++ q) = Some (0, 11 + length q)).
  { now apply search_at_start. }
  rewrite Hs. cbn [before after String.length].
  replace (11 + length q - 11 - 0) with (length q) by lia.
  rewrite <- Hlen at 1. simpl (0 + _).
  rewrite skipn_app, skipn_all, Nat.sub_diag. simpl.
  now rewrite firstn_all.
Qed.

End IntentFacts.

Lemma intent_is_text_after_trigger_witness :
  Intent.extractSearchIntent (lit "Please find a good paper") 
  = Some (lit "a good paper")
  /\ lit "a good paper" <> [].
Proof.
  assert (H : Intent.extractSearchIntent (lit "Please find a good paper")
              = Some (lit "a good paper")) by (vm_compute; reflexivity).
  split; [exact H|].
  exact (proj1 (intent_is_text_after_trigger _ _ H)).
Defined.

Lemma intent_needs_space_witness :
  ~ In space (lit "find") /\ Intent.extractSearchIntent (lit "find") = None.
Proof.
  assert (H : ~ In space (lit "find")) by (vm_compute; intuition discriminate).
  split; [exact H|]. exact (intent_needs_space _ H).
Defined.

Lemma intent_of_search_phrase_witness :
  Forall2 (fun c x => ci c x = true) (lit "search for ") (lit "Search FOR ")
  /\ lit "verified regex engines" <> []
  /\ Intent.extractSearchIntent (lit "Search FOR " ++ lit "verified regex engines")
     = Some (lit "verified regex engines").
Proof.
  assert (Ht : Forall2 (fun c x => ci c x = true) (lit "search for ")
                 (lit "Search FOR ")) by (repeat constructor).
  assert (Hne : lit "verified regex engines" <> []) by discriminate.
  split; [exact Ht|]. split; [exact Hne|].
  apply (intent_of_search_phrase _ _ Ht Hne). repeat constructor.
Defined.

(** ** The document of the aggregator, written out *)

Section DocumentFacts.

Variable toLocaleDateString : str -> str.

Local Abbreviation formatSearchResultsToMarkdown :=
  (formatSearchResultsToMarkdown toLocaleDateString).
Local Abbreviation full_section := (full_section toLocaleDateString).

Implicit Types (env : option Env) (result : ExaSearchResult)
  (results : list ExaSearchResult) (query : str).

Lemma rendered_written_out env result raw :
  text result = Some raw ->
  rendered toLocaleDateString env result
  = match convertToMarkdown (Some raw) env text_html with
    | Ok (VString md) => full_section result md
    | _ => minimal_section result raw
    end.
Proof.
  intros Ht. unfold rendered, normalized. rewrite Ht.
  destruct (convertToMarkdown (Some raw) env text_html) as [[| | | |md]|e];
    reflexivity.
Qed.

(** C2, as the code has it.  For every non-empty list of items of which
    the first ten have a text, and every query, the document is the header
    line naming the query, then one section for each of the first ten items,
    or for all of them if there are fewer, in the order given, then, when
    there are more than ten items, the note that states how many were left
    out.  The section of an item is its title as a link, its author line and
    its formatted date line when it has them, and the summary of its
    normalised markdown, whenever the normaliser yields a string, which it
    does for every backend whose markdown is a string; an item for which it
    yields something else is shown by the minimal section, its title as a
    link and the first 200 code units of its raw text followed by three
    dots.  Fifteen items give ten sections and a note that says 5, and never
    are more than ten items rendered. *)
Theorem aggregate_renders_first_ten env query results :
  results <> [] ->
  Forall (fun result => is_Some (text result)) (firstn 10 results) ->
  exists sections : list str,
    formatSearchResultsToMarkdown (Some results) query env
    = Ok (header_text query ++ concat sections
            ++ omitted_note (length results))
    /\ length sections = Nat.min 10 (length results)
    /\ length sections <= 10
    /\ (forall i result, i < 10 -> results !! i = Some result ->
        exists raw, text result = Some raw
          /\ sections !! i
             = Some (match convertToMarkdown (Some raw) env text_html with
                     | Ok (VString md) => full_section result md
                     | _ => minimal_section result raw
                     end))
    /\ (typed_env env ->
        forall i result, i < 10 -> results !! i = Some result ->
        exists md,
          convertToMarkdown (text result) env text_html = Ok (VString md)
          /\ sections !! i = Some (full_section result md))
    /\ (length results <= 10 -> omitted_note (length results) = [])
    /\ (10 < length results ->
        omitted_note (length results)
        = lit "*And " ++ decimal (length results - 10)
            ++ lit " more results...*" ++ [10%N; 10%N])
    /\ (length results = 15 ->
        length sections = 10
        /\ omitted_note (length results)
           = lit "*And 5 more results...*" ++ [10%N; 10%N]).
Proof.
  intros Hne Hall.
  pose (sections := map (rendered toLocaleDateString env) (firstn 10 results)).
  exists sections.
  assert (Hlen : length sections = Nat.min 10 (length results))
    by (unfold sections; now rewrite length_map, length_take).
  assert (Hsec : forall i result, i < 10 -> results !! i = Some result ->
            exists raw, text result = Some raw
              /\ sections !! i
                 = Some (match convertToMarkdown (Some raw) env text_html with
                         | Ok (VString md) => full_section result md
                         | _ => minimal_section result raw
                         end)).
  { intros i result Hi Hlook.
    assert (Hin : result ∈ firstn 10 results).
    { eapply list_elem_of_lookup_2. rewrite lookup_take_lt by exact Hi.
      exact Hlook. }
    rewrite List.Forall_forall in Hall.
    destruct (Hall result (proj1 (list_elem_of_In _ _) Hin)) as [raw Ht].
    exists raw. split; [exact Ht|]. unfold sections.
    rewrite list_lookup_fmap, lookup_take_lt by exact Hi. rewrite Hlook.
    simpl. now rewrite (rendered_written_out env result raw Ht). }
  split.
  { exact (formatSearchResults_first_ten toLocaleDateString env results query
             Hne Hall). }
  split; [exact Hlen|]. split; [lia|]. split; [exact Hsec|].
  split; [|split; [|split]].
  - intros Htyped i result Hi Hlook.
    destruct (Hsec i result Hi Hlook) as (raw & Ht & Hs).
    assert (Hsome : is_Some (text result)) by (rewrite Ht; eauto).
    destruct (typed_env_normalized env result Htyped Hsome) as [md Hmd].
    exists md. split; [exact Hmd|]. rewrite Ht in Hmd.
    now rewrite Hmd in Hs.
  - intros Hle. unfold omitted_note.
    now rewrite (proj2 (Nat.ltb_ge _ _)) by exact Hle.
  - intros Hlt. unfold omitted_note.
    now rewrite (proj2 (Nat.ltb_lt _ _)) by exact Hlt.
  - intros H15. rewrite Hlen, H15. split; reflexivity.
Qed.

End DocumentFacts.

Lemma aggregate_renders_first_ten_witness :
  repeat plain_item 15 <> []
  /\ Forall (fun result => is_Some (text result))
       (firstn 10 (repeat plain_item 15))
  /\ exists sections : list str,
       formatSearchResultsToMarkdown (fun d => d)
         (Some (repeat plain_item 15)) (lit "q") markdown_env
       = Ok (header_text (lit "q") ++ concat sections
               ++ lit "*And 5 more results...*" ++ [10%N; 10%N])
       /\ length sections = 10.
Proof.
  assert (Hne : repeat plain_item 15 <> []) by discriminate.
  assert (Hall : Forall (fun result => is_Some (text result))
                   (firstn 10 (repeat plain_item 15)))
    by (repeat constructor; eexists; reflexivity).
  split; [exact Hne|]. split; [exact Hall|].
  destruct (aggregate_renders_first_ten (fun d => d) markdown_env (lit "q")
              (repeat plain_item 15) Hne Hall)
    as (sections & Hdoc & _ & _ & _ & _ & _ & _ & H15).
  destruct (H15 eq_refl) as [Hlen Hnote].
  exists sections. split; [|exact Hlen].
  rewrite Hdoc. now rewrite Hnote.
Defined.

(** C2 as stated fails where it promises the summary for every item: with
    a backend whose markdown record carries a number, the one item of the
    list, which has an author, is shown by the minimal section, without
    author line and without summary. *)
Lemma numeric_backend_data_not_summarised :
  formatSearchResultsToMarkdown (fun d => d) (Some [plain_item]) (lit "q")
    number_env
  = Ok (header_text (lit "q")
          ++ minimal_section plain_item
               (lit "Plain <b>text</b>, with an unclosed <div tag."))
  /\ forall md,
       formatSearchResultsToMarkdown (fun d => d) (Some [plain_item]) (lit "q")
         number_env
       <> Ok (header_text (lit "q")
                ++ full_section (fun d => d) plain_item md).
Proof.
  assert (H : formatSearchResultsToMarkdown (fun d => d) (Some [plain_item])
                (lit "q") number_env
              = Ok (header_text (lit "q")
                      ++ minimal_section plain_item
                           (lit "Plain <b>text</b>, with an unclosed <div tag.")))
    by (vm_compute; reflexivity).
  split; [exact H|]. intros md Hmd. rewrite H in Hmd.
  apply (f_equal (fun r : result str =>
                    match r with Ok doc => doc | Throw _ => [] end)) in Hmd.
  cbv beta iota in Hmd. apply app_inv_head in Hmd.
  unfold minimal_section, full_section in Hmd. apply app_inv_head in Hmd.
  apply (f_equal (hd 0%N)) in Hmd. vm_compute in Hmd. discriminate.
Qed.

